(** * The house-price demo of [basic_decision_regression]

    Shallow embedding of [src/tree/basic_decision_regression/src/demo.cpp]:
    the CSV loader ([load_data_from_one_file], [load_data]), the column
    configuration ([GetDataConfig]), the metrics ([test_tree]) and the
    command-line driver ([main]).

    Conventions of the embedding.
    - A C++ [float] is an IEEE-754 binary32 number, modelled by the Standard
      Library's [spec_float] at precision 24 and maximal exponent 128, with
      round-to-nearest-even arithmetic ([SFadd], [SFsub], [SFdiv]) and the
      IEEE comparison ([SFltb], false on NaN).
    - A C++ [int] is a [Z]; the demo performs no integer arithmetic besides
      loop counters, which are [nat] indices here.
    - A call that may throw, or whose behaviour the C++ standard leaves
      undefined, returns an [outcome].
    - [std::cout] is a list of output items; formatting of numbers is not
      modelled, an item records the value handed to [operator<<]. *)

From Stdlib Require Import ZArith List String Ascii Lia.
From Stdlib Require Import Floats.SpecFloat.
From stdpp Require Import gmap strings list fin_maps.

Local Open Scope string_scope.
Local Open Scope Z_scope.

(** ** Single-precision numbers *)

Module F32.

Definition prec : Z := 24.
Definition emax : Z := 128.

Definition t : Type := spec_float.

Definition add : t -> t -> t := SFadd prec emax.
Definition sub : t -> t -> t := SFsub prec emax.
Definition div : t -> t -> t := SFdiv prec emax.
Definition abs : t -> t := SFabs.
Definition ltb : t -> t -> bool := SFltb.
Definition leb : t -> t -> bool := SFleb.

(** Conversion of an integer, rounding to nearest even. *)
Definition of_Z (z : Z) : t := binary_normalize prec emax z 0 false.
Definition of_nat (n : nat) : t := of_Z (Z.of_nat n).

Definition zero : t := S754_zero false.
Definition one : t := Eval vm_compute in of_Z 1.
Definition minus_one : t := Eval vm_compute in of_Z (-1).

(** The literal [1e-5] converted to [float]: 10995116 * 2^-40. *)
Definition lit_1e_5 : t := S754_finite false 10995116 (-40).
(** The literal [0.1] converted to [float]: 13421773 * 2^-27. *)
Definition lit_0_1 : t := S754_finite false 13421773 (-27).

Definition is_nan (x : t) : bool :=
  match x with S754_nan => true | _ => false end.

(** [std::max<float>(a, b)] is [(a < b) ? b : a]. *)
Definition max (a b : t) : t := if ltb a b then b else a.

(** [n] successive [+= 1] from [0]. *)
Definition count (n : nat) : t := Nat.iter n (fun a => add a one) zero.

End F32.

(** ** Outcomes of calls *)

Inductive exn : Type :=
| bad_lexical_cast
| TypeMismatchError
| EngineError (what : string).

Inductive outcome (A : Type) : Type :=
| Ok (a : A)
| Throw (e : exn)
| Undefined.
Arguments Ok {A} a.
Arguments Throw {A} e.
Arguments Undefined {A}.

#[export] Instance outcome_ret : MRet outcome := fun _ a => Ok a.
#[export] Instance outcome_bind : MBind outcome := fun _ _ f m =>
  match m with
  | Ok a => f a
  | Throw e => Throw e
  | Undefined => Undefined
  end.
#[export] Instance outcome_fmap : FMap outcome := fun _ _ f m =>
  match m with
  | Ok a => Ok (f a)
  | Throw e => Throw e
  | Undefined => Undefined
  end.

(** [v[k]] on a [std::vector]: no bounds check, undefined when out of range. *)
Definition at_ {A : Type} (v : list A) (k : nat) : outcome A :=
  match v !! k with
  | Some x => Ok x
  | None => Undefined
  end.

(** ** Typed values and rows *)

(** Modelled from the spec: [basic_tree.h], which declares [basic_tree::VALUE],
    is not among the sources.  The spec gives a discriminated scalar,
    [Category(int)] with discriminant 0 or [Measurement(float)] with
    discriminant 1, whose accessor fails with [TypeMismatchError] on the
    other variant.  The constructor from [int] builds a category, the one from
    [float] a measurement. *)
Inductive VALUE : Type :=
| Category (c : Z)
| Measurement (m : F32.t).

Definition VALUE_dtype (v : VALUE) : Z :=
  match v with
  | Category _ => 0
  | Measurement _ => 1
  end.

Definition VALUE_i (v : VALUE) : outcome Z :=
  match v with
  | Category c => Ok c
  | Measurement _ => Throw TypeMismatchError
  end.

Definition VALUE_f (v : VALUE) : outcome F32.t :=
  match v with
  | Measurement m => Ok m
  | Category _ => Throw TypeMismatchError
  end.

Abbreviation Row := (list VALUE).
Abbreviation Dataset := (list (list VALUE)).

(** A [std::map<int, float>] as the list of its entries in iteration order. *)
Abbreviation PredMap := (list (Z * F32.t)).

(** ** Standard output *)

Inductive out_item : Type :=
| OStr (s : string)
| OFloat (x : F32.t)
| OInt (z : Z)
| OSize (n : nat)
| OEndl.

(** ** The collaborators declared outside [demo.cpp] *)

(** Modelled from the spec: [basic_tree::CTrainParam] is declared in the
    missing [basic_tree.h].  The spec gives a criterion name, a [float]
    dispersion threshold and an integer depth bound; the field names are the
    ones [main] assigns. *)
Record CTrainParam : Type := {
  loss_type : string;
  min_std : F32.t;
  max_depth : Z;
}.

(** What [basic_tree.h] provides besides [VALUE] and [CTrainParam], taken as an
    interface: the default-constructed [VALUE] and [CTrainParam], the tree
    object with its default constructor, and its two operations.  [Train]
    mutates the tree object, so it returns the new object. *)
Class basic_tree : Type := {
  VALUE_default : VALUE;
  CTrainParam_default : CTrainParam;
  CTree : Type;
  CTree_new : CTree;
  Train : CTree -> Dataset -> CTrainParam -> outcome CTree;
  Evaluate : CTree -> Dataset -> outcome (list PredMap);
}.

(** [boost::lexical_cast<float>] and [boost::lexical_cast<int>]; [None] stands
    for the [bad_lexical_cast] exception. *)
Class lexical_cast : Type := {
  lexical_cast_float : string -> option F32.t;
  lexical_cast_int : string -> option Z;
}.

(** The process environment and the file system seen by [std::ifstream]:
    [file path = None] when the file cannot be opened, otherwise the
    characters the stream delivers. *)
Record World : Type := {
  getenv : string -> option string;
  file : string -> option string;
}.

(** ** Programs: a trace of events and an outcome *)

Inductive event `{basic_tree} : Type :=
| EvOpen (path : string)
| EvOut (o : out_item)
| EvTrain (tree : CTree) (X : Dataset) (param : CTrainParam).

Definition prog `{basic_tree} (A : Type) : Type := (list event * outcome A)%type.

#[export] Instance prog_ret `{basic_tree} : MRet prog := fun _ a => ([], Ok a).
#[export] Instance prog_bind `{basic_tree} : MBind prog := fun _ _ f m =>
  match m with
  | (tr, Ok a) => let '(tr', r) := f a in ((tr ++ tr')%list, r)
  | (tr, Throw e) => (tr, Throw e)
  | (tr, Undefined) => (tr, Undefined)
  end.

(** A call that leaves no event. *)
Definition call `{basic_tree} {A : Type} (r : outcome A) : prog A := ([], r).

(** [std::cout << o1 << o2 << ...]. *)
Definition cout `{basic_tree} (items : list out_item) : prog unit :=
  (EvOut <$> items, Ok tt).

(** ** Input streams *)

Definition newline : ascii := "010"%char.
Definition NUL : ascii := "000"%char.

Record ifstream : Type := {
  rdbuf : string;
  eofbit : bool;
  failbit : bool;
}.

Record extraction : Type := {
  stored : string;
  rest : string;
  hit_eof : bool;
  hit_limit : bool;
  extracted : nat;
}.

(** The extraction loop of [istream::getline (s, n)] with [room = n - 1]:
    it stops at end of file, then at the delimiter (extracted, not stored),
    then when [room] characters are stored, tested in this order. *)
Fixpoint getline_chars (room : nat) (buf : string) {struct buf} : extraction :=
  match buf with
  | EmptyString =>
      {| stored := ""; rest := ""; hit_eof := true; hit_limit := false; extracted := 0 |}
  | String c buf' =>
      if Ascii.eqb c newline then
        {| stored := ""; rest := buf'; hit_eof := false; hit_limit := false; extracted := 1 |}
      else
        match room with
        | O => {| stored := ""; rest := buf; hit_eof := false; hit_limit := true; extracted := 0 |}
        | S room' =>
            let x := getline_chars room' buf' in
            {| stored := String c (stored x); rest := rest x; hit_eof := hit_eof x;
               hit_limit := hit_limit x; extracted := S (extracted x) |}
        end
  end.

(** [fs.getline (s, n)]: nothing is read from a stream that is not good;
    [failbit] is set when the limit is hit or nothing was extracted. *)
Definition getline (fs : ifstream) (n : nat) : string * ifstream :=
  if eofbit fs || failbit fs then
    ("", {| rdbuf := rdbuf fs; eofbit := eofbit fs; failbit := true |})
  else
    let x := getline_chars (n - 1) (rdbuf fs) in
    (stored x,
     {| rdbuf := rest x; eofbit := hit_eof x;
        failbit := hit_limit x || Nat.eqb (extracted x) 0 |}).

(** The characters of a buffer up to its first NUL: what
    [std::string line = line_content] copies. *)
Fixpoint c_str (s : string) : string :=
  match s with
  | EmptyString => ""
  | String c s' => if Ascii.eqb c NUL then "" else String c (c_str s')
  end.

(** ** Splitting and trimming *)

Definition is_any_of (set : string) (c : ascii) : bool :=
  existsb (Ascii.eqb c) (list_ascii_of_string set).

(** [boost::split (result, s, pred, token_compress_on)]: the tokens between
    maximal runs of separators; a run at either end leaves an empty token
    there.  [in_run] tells that the previous character was a separator. *)
Fixpoint split_compress (pred : ascii -> bool) (in_run : bool) (s : string) : list string :=
  match s with
  | EmptyString => [""]
  | String c s' =>
      if pred c then
        if in_run then split_compress pred true s'
        else "" :: split_compress pred true s'
      else
        match split_compress pred false s' with
        | tok :: toks => String c tok :: toks
        | [] => [String c ""]
        end
  end.

Definition boost_split (s : string) (pred : ascii -> bool) : list string :=
  split_compress pred false s.

Fixpoint trim_left_if (pred : ascii -> bool) (s : string) : string :=
  match s with
  | EmptyString => ""
  | String c s' => if pred c then trim_left_if pred s' else s
  end.

Fixpoint trim_right_if (pred : ascii -> bool) (s : string) : string :=
  match s with
  | EmptyString => ""
  | String c s' =>
      match trim_right_if pred s' with
      | EmptyString => if pred c then "" else String c ""
      | t => String c t
      end
  end.

(** [boost::trim_if]: both ends. *)
Definition trim_if (s : string) (pred : ascii -> bool) : string :=
  trim_left_if pred (trim_right_if pred s).

(** The characters ["\r\n\t "]. *)
Definition blanks : string :=
  String "013"%char (String "010"%char (String "009"%char (String " "%char ""))).

(** ** The column configuration *)

Record DATA_CONFIG : Type := {
  dtype : string;
  pos : Z;
}.

(** [std::map::insert]: an existing key keeps its value. *)
Definition map_insert (k : string) (v : DATA_CONFIG)
    (m : gmap string DATA_CONFIG) : gmap string DATA_CONFIG :=
  match m !! k with
  | Some _ => m
  | None => <[k := v]> m
  end.

Definition GetDataConfig (data_config : gmap string DATA_CONFIG) : gmap string DATA_CONFIG :=
  let data_config := map_insert "SalePrice" {| dtype := "value"; pos := 0 |} data_config in
  let data_config := map_insert "YearBuilt" {| dtype := "value"; pos := 1 |} data_config in
  let data_config := map_insert "YearRemodAdd" {| dtype := "value"; pos := 2 |} data_config in
  let data_config := map_insert "Neighborhood" {| dtype := "value"; pos := 3 |} data_config in
  let data_config := map_insert "LotArea" {| dtype := "value"; pos := 4 |} data_config in
  let data_config := map_insert "LotShape" {| dtype := "class"; pos := 5 |} data_config in
  let data_config := map_insert "LotConfig" {| dtype := "class"; pos := 6 |} data_config in
  let data_config := map_insert "HouseStyle" {| dtype := "class"; pos := 7 |} data_config in
  let data_config := map_insert "GarageArea" {| dtype := "value"; pos := 8 |} data_config in
  data_config.

(** ** The loader *)

(** [v[i] = x] on a [std::vector], [i] an [int]. *)
Definition vector_set {A : Type} (v : list A) (i : Z) (x : A) : outcome (list A) :=
  if (0 <=? i) && (i <? Z.of_nat (length v)) then Ok (<[Z.to_nat i := x]> v)
  else Undefined.

Definition or_bad_cast {A : Type} (r : option A) : outcome A :=
  match r with
  | Some x => Ok x
  | None => Throw bad_lexical_cast
  end.

(** The cell of one column: the [VALUE] built from the text [cell] under the
    configuration entry of its header. *)
Definition parse_cell `{lexical_cast} (cfg : DATA_CONFIG) (cell : string) : outcome VALUE :=
  if String.eqb (dtype cfg) "value" then
    Measurement <$> or_bad_cast (lexical_cast_float cell)
  else
    Category <$> or_bad_cast (lexical_cast_int cell).

(** The loop [for (col = 0; col < splits.size (); col++)]; [cells] are
    [splits[col]], [splits[col + 1]], ... *)
Fixpoint fill_row `{lexical_cast} (data_config : gmap string DATA_CONFIG)
    (col2head : list string) (col : nat) (cells : list string) (data : Row) : outcome Row :=
  match cells with
  | [] => Ok data
  | cell :: cells' =>
      head ← at_ col2head col;
      match data_config !! head with
      | None => fill_row data_config col2head (S col) cells' data
      | Some head_dtype =>
          val ← parse_cell head_dtype cell;
          data ← vector_set data (pos head_dtype) val;
          fill_row data_config col2head (S col) cells' data
      end
  end.

Definition split_line (line : string) : list string :=
  (fun str => trim_if str (is_any_of blanks)) <$> boost_split line (is_any_of ",").

(** The loop [while (!fs.eof ())].  Every iteration that does not leave the
    loop extracts at least one character, so [fuel] above the length of the
    buffer is never exhausted ([read_loop_fuel] below). *)
Fixpoint read_loop `{basic_tree, lexical_cast} (fuel : nat)
    (data_config : gmap string DATA_CONFIG) (fs : ifstream)
    (col2head : list string) (data_all : Dataset) : option (outcome Dataset) :=
  match fuel with
  | O => None
  | S fuel' =>
      if eofbit fs then Some (Ok data_all)
      else
        let columns := size data_config in
        let data := replicate columns VALUE_default in
        let '(line_content, fs) := getline fs 2048 in
        let line := c_str line_content in
        match line with
        | EmptyString => Some (Ok data_all)
        | _ =>
            let splits := split_line line in
            match col2head with
            | [] => read_loop fuel' data_config fs (col2head ++ splits)%list data_all
            | _ =>
                match fill_row data_config col2head 0 splits data with
                | Ok data => read_loop fuel' data_config fs col2head (data_all ++ [data])%list
                | Throw e => Some (Throw e)
                | Undefined => Some Undefined
                end
            end
        end
  end.

Definition read_all `{basic_tree, lexical_cast}
    (data_config : gmap string DATA_CONFIG) (content : string) : outcome Dataset :=
  let fs := {| rdbuf := content; eofbit := false; failbit := false |} in
  match read_loop (S (String.length content)) data_config fs [] [] with
  | Some r => r
  | None => Undefined
  end.

Definition load_data_from_one_file `{basic_tree, lexical_cast} (w : World)
    (csv_file : string) (data_config : gmap string DATA_CONFIG) : prog Dataset :=
  ([EvOpen csv_file], Ok tt);;
  match file w csv_file with
  | None => mret []
  | Some content => call (read_all data_config content)
  end.

(** The two datasets are written through reference parameters; they are
    returned next to the [int] result. *)
Definition load_data `{basic_tree, lexical_cast} (w : World) (data_dir : string)
    (data_config : gmap string DATA_CONFIG) : prog (Z * Dataset * Dataset) :=
  let train_file := String.append data_dir "/train.csv" in
  let test_file := String.append data_dir "/test.csv" in
  train_data ← load_data_from_one_file w train_file data_config;
  test_data ← load_data_from_one_file w test_file data_config;
  cout [OStr "INFO: train "; OSize (length train_data); OStr ", test ";
        OSize (length test_data); OEndl];;
  mret (0, train_data, test_data).

(** ** The metrics *)

(** The body of [for (auto itr : preds[k])], on the pair
    [(pred_c, pred_prob)]. *)
Definition argmax_step (st : Z * F32.t) (itr : Z * F32.t) : Z * F32.t :=
  let '(pred_c, pred_prob) := st in
  if F32.ltb pred_prob (snd itr) then (fst itr, snd itr) else (pred_c, pred_prob).

Definition argmax_scan (m : PredMap) : Z * F32.t :=
  fold_left argmax_step m (-1, F32.minus_one).

(** [pred_c] after the inner loop. *)
Definition pred_class (m : PredMap) : Z := fst (argmax_scan m).

(** The classification loop, on the predictions that remain from index [k]. *)
Fixpoint recall_loop (X : Dataset) (k : nat) (preds : list PredMap)
    (recalling : F32.t) : outcome F32.t :=
  match preds with
  | [] => Ok recalling
  | preds_k :: preds' =>
      let pred_c := pred_class preds_k in
      X_k ← at_ X k;
      X_k_0 ← at_ X_k 0;
      c ← VALUE_i X_k_0;
      let recalling := if (pred_c =? c)%Z then F32.add recalling F32.one else recalling in
      recall_loop X (S k) preds' recalling
  end.

(** [preds[k][0]]: [std::map::operator[]] yields a zero for an absent key. *)
Fixpoint map_at (m : PredMap) (key : Z) : F32.t :=
  match m with
  | [] => F32.zero
  | (c, p) :: m' => if (c =? key)%Z then p else map_at m' key
  end.

(** One summand of the regression metric. *)
Definition deviation (pred truth : F32.t) : F32.t :=
  let err := F32.abs (F32.sub pred truth) in
  F32.div err (F32.max F32.lit_1e_5 truth).

(** The regression loop. *)
Fixpoint mapd_loop (X : Dataset) (k : nat) (preds : list PredMap)
    (MAPD : F32.t) : outcome F32.t :=
  match preds with
  | [] => Ok MAPD
  | preds_k :: preds' =>
      X_k ← at_ X k;
      X_k_0 ← at_ X_k 0;
      f ← VALUE_f X_k_0;
      mapd_loop X (S k) preds' (F32.add MAPD (deviation (map_at preds_k 0) f))
  end.

Definition test_tree `{basic_tree} (tree : CTree) (X : Dataset) : prog unit :=
  preds ← call (Evaluate tree X);
  X_0 ← call (at_ X 0);
  X_0_0 ← call (at_ X_0 0);
  if (VALUE_dtype X_0_0 =? 0)%Z then
    recalling ← call (recall_loop X 0 preds F32.zero);
    cout [OStr "REC: "; OFloat (F32.div recalling (F32.of_nat (length X))); OEndl]
  else if (VALUE_dtype X_0_0 =? 1)%Z then
    MAPD ← call (mapd_loop X 0 preds F32.zero);
    cout [OStr "MAPD: "; OFloat (F32.div MAPD (F32.of_nat (length X))); OEndl]
  else mret tt.

(** ** The driver *)

(** [std::string (p)] for a [char*]: undefined on a null pointer. *)
Definition std_string (p : option string) : outcome string :=
  match p with
  | Some s => Ok s
  | None => Undefined
  end.

Definition set_max_depth (param : CTrainParam) (depth : Z) : CTrainParam :=
  {| loss_type := loss_type param; min_std := min_std param; max_depth := depth |}.

(** [tree_object.Train (X, param)], recorded in the trace. *)
Definition train `{basic_tree} (tree : CTree) (X : Dataset) (param : CTrainParam) : prog CTree :=
  ([EvTrain tree X param], Train tree X param).

(** The loop [for (auto depth : depths)]; [param] lives across iterations. *)
Fixpoint depth_loop `{basic_tree} (depths : list Z) (param : CTrainParam)
    (trainset testset : Dataset) : prog unit :=
  match depths with
  | [] => mret tt
  | depth :: depths' =>
      let tree_object := CTree_new in
      let param := set_max_depth param depth in
      tree_object ← train tree_object trainset param;
      cout [OStr "max depth:"; OInt (max_depth param); OEndl];;
      cout [OStr "-------evaluate trainset----------"; OEndl];;
      test_tree tree_object trainset;;
      cout [OStr "-------evaluate testset----------"; OEndl];;
      test_tree tree_object testset;;
      depth_loop depths' param trainset testset
  end.

Definition main `{basic_tree, lexical_cast} (w : World) : prog Z :=
  let data_config := GetDataConfig ∅ in
  let param := CTrainParam_default in
  root_dir ← call (std_string (getenv w "DATASET_ROOT_DIR"));
  let root_dir := String.append root_dir "house_price\" in
  '(_, trainset, testset) ← load_data w root_dir data_config;
  let param := {| loss_type := "gini"; min_std := min_std param; max_depth := max_depth param |} in
  let param := {| loss_type := loss_type param; min_std := F32.lit_0_1; max_depth := max_depth param |} in
  let depths := [3; 10; 50] in
  depth_loop depths param trainset testset;;
  mret 0.

(** ** A concrete instance, for examples *)

Module Sample.

Definition digit (c : ascii) : option Z :=
  let n := Z.of_N (N_of_ascii c) in
  if ((48 <=? n) && (n <=? 57))%Z then Some (n - 48) else None.

Fixpoint digits (acc : Z) (s : string) : option Z :=
  match s with
  | EmptyString => Some acc
  | String c s' => d ← digit c; digits (10 * acc + d) s'
  end.

(** Decimal integers with an optional sign; a fragment of what
    [lexical_cast] accepts. *)
Definition integer (s : string) : option Z :=
  match s with
  | EmptyString => None
  | String "-" (String c s') => Z.opp <$> digits 0 (String c s')
  | String "+" (String c s') => digits 0 (String c s')
  | _ => digits 0 s
  end.

(** An [int] has 32 bits: a decimal outside its range is rejected. *)
Definition in_int_range (z : Z) : option Z :=
  if (-2147483648 <=? z) && (z <=? 2147483647) then Some z else None.

Definition casts : lexical_cast :=
  {| lexical_cast_float := fun s => F32.of_Z <$> integer s;
     lexical_cast_int := fun s => z ← integer s; in_int_range z |}.

(** A one-leaf engine: training keeps the target of the first row, as a
    distribution or as a mean under key 0; every row gets that leaf. *)
Definition leaf_of (X : Dataset) : outcome PredMap :=
  match X with
  | (Category c :: _) :: _ => Ok [(c, F32.one)]
  | (Measurement m :: _) :: _ => Ok [(0, m)]
  | _ => Throw (EngineError "InsufficientDataError")
  end.

Definition engine : basic_tree :=
  {| VALUE_default := Category 0;
     CTrainParam_default := {| loss_type := ""; min_std := F32.zero; max_depth := 0 |};
     CTree := PredMap;
     CTree_new := [];
     Train := fun _ X _ => leaf_of X;
     Evaluate := fun tree X => Ok ((fun _ => tree) <$> X) |}.

Definition nl : string := String newline "".

Definition train_csv : string :=
  "Id,SalePrice,LotShape,YearBuilt" +:+ nl +:+
  "1,208500,0,2003" +:+ nl +:+
  "2,181500,1,1976" +:+ nl.

Definition test_csv : string :=
  "Id,SalePrice,LotShape,YearBuilt" +:+ nl +:+
  "3,223500,1,2001" +:+ nl +:+ nl +:+
  "4,140000,1,1915" +:+ nl.

Definition world : World :=
  {| getenv := fun name =>
       if String.eqb name "DATASET_ROOT_DIR" then Some "D:\data\" else None;
     file := fun path =>
       if String.eqb path "D:\data\house_price\/train.csv" then Some train_csv
       else if String.eqb path "D:\data\house_price\/test.csv" then Some test_csv
       else None |}.

End Sample.

(** Further sample data. *)
Module SampleData.

Definition half : F32.t := Eval vm_compute in F32.div F32.one (F32.of_Z 2).

(** A leaf with two equally likely classes, and two rows of classes. *)
Definition coin : PredMap := [(0, half); (1, half)].
Definition class_rows : Dataset := [[Category 0]; [Category 1]].

(** A leaf with mean 10, and two rows of measurements. *)
Definition ten : PredMap := [(0, F32.of_Z 10)].
Definition price_rows : Dataset := [[Measurement (F32.of_Z 10)]; [Measurement (F32.of_Z 20)]].

(** A header and a line under it. *)
Definition header : list string := ["Id"; "SalePrice"; "LotShape"].
Definition cells : list string := ["1"; "208500"; "0"].

(** A file whose second line has 2048 characters. *)
Definition long_line : string := "1" +:+ string_of_list_ascii (replicate 2047 " "%char).
Definition long_csv : string :=
  "SalePrice" +:+ Sample.nl +:+ long_line +:+ Sample.nl +:+ "2" +:+ Sample.nl.

Definition unwrap (r : outcome Dataset) : Dataset :=
  match r with Ok d => d | _ => [] end.

Definition trainset : Dataset :=
  Eval vm_compute in
    unwrap (@read_all Sample.engine Sample.casts (GetDataConfig ∅) Sample.train_csv).
Definition testset : Dataset :=
  Eval vm_compute in
    unwrap (@read_all Sample.engine Sample.casts (GetDataConfig ∅) Sample.test_csv).

(** The tree that the sample engine trains on [trainset]. *)
Definition leaf : PredMap :=
  Eval vm_compute in match Sample.leaf_of trainset with Ok m => m | _ => [] end.

(** No environment variable, no file. *)
Definition bare : World := {| getenv := fun _ => None; file := fun _ => None |}.

(** Every file exists and is empty. *)
Definition blank : World := {| getenv := fun _ => None; file := fun _ => Some "" |}.

End SampleData.

(** Sample data for the edge cases. *)
Module SampleEdge.

(** An engine that returns one prediction too many. *)
Definition chatty : basic_tree :=
  {| VALUE_default := Category 0;
     CTrainParam_default := {| loss_type := ""; min_std := F32.zero; max_depth := 0 |};
     CTree := PredMap;
     CTree_new := [];
     Train := fun _ X _ => Sample.leaf_of X;
     Evaluate := fun tree X => Ok (tree :: ((fun _ => tree) <$> X)) |}.

(** A file whose only data cell is not a number. *)
Definition bad_csv : string := "SalePrice" +:+ Sample.nl +:+ "abc" +:+ Sample.nl.

Definition bad_world : World :=
  {| getenv := fun name =>
       if String.eqb name "DATASET_ROOT_DIR" then Some "D:\data\" else None;
     file := fun _ => Some bad_csv |}.

(** The first 2047 characters of [SampleData.long_line], and what follows
    them in [SampleData.long_csv]. *)
Definition long_head : string := "1" +:+ string_of_list_ascii (replicate 2046 " "%char).
Definition long_tail : string := Sample.nl +:+ "2" +:+ Sample.nl.

Definition carriage_return : string := String "013"%char "".

End SampleEdge.

(** ** Vocabulary of the statements *)

(** [q * 2^k], by [k] doublings. *)
Definition shifted (k : nat) (q : positive) : positive := Nat.iter k xO q.

(** Case analysis for the comparison of two numbers. *)
Ltac order_cases :=
  change (PosDef.Pos.compare_cont Eq) with Pos.compare in *;
  repeat match goal with
  | |- context [(?a ?= ?b)%Z] => destruct (Z.compare_spec a b)
  | |- context [(?a ?= ?b)%positive] => destruct (Pos.compare_spec a b)
  | H : context [(?a ?= ?b)%Z] |- _ => destruct (Z.compare_spec a b)
  | H : context [(?a ?= ?b)%positive] |- _ => destruct (Pos.compare_spec a b)
  end;
  simpl in *; try congruence; try lia.

Ltac by_cases x :=
  destruct x as [[]|[]| |[] ? ?]; simpl in *; try congruence.

Ltac unfold_order :=
  unfold F32.ltb, F32.leb, F32.is_nan, SFltb, SFleb, SFcompare in *.

(** Every probability of the mapping exceeds the initial [pred_prob = -1]
    (so none is a NaN), and there is at least one. *)
Definition probabilities (m : PredMap) : Prop :=
  m <> [] /\ Forall (fun e => F32.ltb F32.minus_one (snd e) = true) m.

(** [c] is the first key, in iteration order, whose probability is maximal. *)
Definition first_argmax (m : PredMap) (c : Z) : Prop :=
  exists (i : nat) (p : F32.t),
    m !! i = Some (c, p) /\
    (forall j e, m !! j = Some e -> F32.leb (snd e) p = true) /\
    (forall j e, m !! j = Some e -> (j < i)%nat -> F32.ltb (snd e) p = true).

(** The state of the scan after a non-empty prefix. *)
Definition scan_inv (m : PredMap) (st : Z * F32.t) : Prop :=
  exists i : nat,
    m !! i = Some st /\
    (forall j e, m !! j = Some e -> F32.leb (snd e) (snd st) = true) /\
    (forall j e, m !! j = Some e -> (j < i)%nat -> F32.ltb (snd e) (snd st) = true).

Definition hit (m : PredMap) (c : Z) : bool := (pred_class m =? c)%Z.

(** The number of rows whose scanned class is the true class. *)
Fixpoint hits (preds : list PredMap) (classes : list Z) : nat :=
  match preds, classes with
  | m :: preds', c :: classes' => ((if hit m c then 1 else 0) + hits preds' classes')%nat
  | _, _ => 0%nat
  end.

(** The denominator of a deviation. *)
Definition floored (truth : F32.t) : F32.t := F32.max F32.lit_1e_5 truth.

Definition abs_pct_dev (m : PredMap) (truth : F32.t) : F32.t :=
  F32.div (F32.abs (F32.sub (map_at m 0) truth)) (floored truth).

(** Summation from the left, as a loop of [+=] does it. *)
Definition F32_sum (l : list F32.t) : F32.t := fold_left F32.add l F32.zero.

Definition metric_line `{basic_tree} (label : string) (x : F32.t) : list event :=
  EvOut <$> [OStr label; OFloat x; OEndl].

(** A program that prints nothing but one line of the given metric, and
    nothing at all when it fails. *)
Definition prints_only `{basic_tree} (label : string) (p : prog unit) : Prop :=
  (fst p = [] /\ snd p <> Ok tt) \/ exists x, p = (metric_line label x, Ok tt).

(** No column in [lo, hi) is configured to write the slot [p]. *)
Definition no_writer (data_config : gmap string DATA_CONFIG) (col2head : list string)
    (lo hi : nat) (p : Z) : Prop :=
  forall col' head' cfg',
    (lo <= col' < hi)%nat -> col2head !! col' = Some head' ->
    data_config !! head' = Some cfg' -> pos cfg' <> p.

(** The text of a configured cell is accepted by the cast of its kind, and
    its slot exists in a row of [n] slots. *)
Definition cell_ok `{lexical_cast} (n : nat) (cfg : DATA_CONFIG) (cell : string) : Prop :=
  (0 <= pos cfg < Z.of_nat n) /\
  (dtype cfg = "value" -> is_Some (lexical_cast_float cell)) /\
  (dtype cfg <> "value" -> is_Some (lexical_cast_int cell)).

Fixpoint has_char (c : ascii) (s : string) : bool :=
  match s with
  | EmptyString => false
  | String c' s' => Ascii.eqb c' c || has_char c s'
  end.

(** The pieces of a text between its newline characters. *)
Fixpoint lines (s : string) : list string :=
  match s with
  | EmptyString => [""]
  | String c s' =>
      if Ascii.eqb c newline then "" :: lines s'
      else
        match lines s' with
        | l :: ls => String c l :: ls
        | [] => [String c ""]
        end
  end.

Fixpoint join_lines (ls : list string) : string :=
  match ls with
  | [] => ""
  | [l] => l
  | l :: ls' => l +:+ String newline (join_lines ls')
  end.

(** The lines before the first empty one. *)
Fixpoint until_empty (ls : list string) : list string :=
  match ls with
  | [] => []
  | EmptyString :: _ => []
  | l :: ls' => l :: until_empty ls'
  end.

(** The row that the loader builds from one line under a header. *)
Definition row_of_line `{basic_tree, lexical_cast} (data_config : gmap string DATA_CONFIG)
    (col2head : list string) (line : string) : outcome Row :=
  fill_row data_config col2head 0 (split_line line)
    (replicate (size data_config) VALUE_default).

(** The stream in front of the lines [ls]: at end of file after the last. *)
Definition stream_of (ls : list string) : ifstream :=
  match ls with
  | [] => {| rdbuf := ""; eofbit := true; failbit := false |}
  | _ => {| rdbuf := join_lines ls; eofbit := false; failbit := false |}
  end.

(** The dataset that the loader reads at a path. *)
Definition dataset_at `{basic_tree, lexical_cast} (w : World)
    (data_config : gmap string DATA_CONFIG) (path : string) : outcome Dataset :=
  match file w path with
  | None => Ok []
  | Some content => read_all data_config content
  end.

Definition is_open `{basic_tree} (e : event) : bool :=
  match e with EvOpen _ => true | _ => false end.

Definition is_train `{basic_tree} (e : event) : bool :=
  match e with EvTrain _ _ _ => true | _ => false end.

(** What every training call of the driver has in common. *)
Definition fixed_params `{basic_tree} (e : event) : Prop :=
  match e with
  | EvTrain tree _ param =>
      tree = CTree_new /\ loss_type param = "gini" /\ min_std param = F32.lit_0_1 /\
      max_depth param ∈ [3; 10; 50]
  | _ => True
  end.

(** The parameters of the run at depth [d]. *)
Definition run_param (d : Z) : CTrainParam :=
  {| loss_type := "gini"; min_std := F32.lit_0_1; max_depth := d |}.

(** The events of one run of the driver's loop: the training call on a new
    tree, the depth, then the metric on each of the two sets; [tree] is the
    trained tree. *)
Definition run_events `{basic_tree} (d : Z) (tree : CTree) (trainset testset : Dataset) : list event :=
  (EvTrain CTree_new trainset (run_param d)
   :: (EvOut <$> [OStr "max depth:"; OInt d; OEndl;
                  OStr "-------evaluate trainset----------"; OEndl])
   ++ fst (test_tree tree trainset)
   ++ (EvOut <$> [OStr "-------evaluate testset----------"; OEndl])
   ++ fst (test_tree tree testset))%list.

(** [param] when the loop over the depths starts. *)
Definition initial_param `{basic_tree} : CTrainParam :=
  {| loss_type := "gini"; min_std := F32.lit_0_1; max_depth := max_depth CTrainParam_default |}.

Definition info_line `{basic_tree} (train_data test_data : Dataset) : list event :=
  EvOut <$> [OStr "INFO: train "; OSize (length train_data); OStr ", test ";
             OSize (length test_data); OEndl].

(** ** Vocabulary of the further properties *)

(** The names that [GetDataConfig] inserts. *)
Definition configured_names : list string :=
  ["SalePrice"; "YearBuilt"; "YearRemodAdd"; "Neighborhood"; "LotArea"; "LotShape";
   "LotConfig"; "HouseStyle"; "GarageArea"].

(** The text of a cell is accepted by the cast of its kind. *)
Definition castable `{lexical_cast} (cfg : DATA_CONFIG) (cell : string) : Prop :=
  (dtype cfg = "value" -> is_Some (lexical_cast_float cell)) /\
  (dtype cfg <> "value" -> is_Some (lexical_cast_int cell)).

(** The first, resp. last, character of a string is a blank. *)
Definition starts_blank (s : string) : bool :=
  match s with
  | EmptyString => false
  | String c _ => is_any_of blanks c
  end.

Fixpoint ends_blank (s : string) : bool :=
  match s with
  | EmptyString => false
  | String c EmptyString => is_any_of blanks c
  | String _ s' => ends_blank s'
  end.

Fixpoint all_blank (s : string) : bool :=
  match s with
  | EmptyString => true
  | String c s' => is_any_of blanks c && all_blank s'
  end.

Definition comma : ascii := ","%char.

(** The probability of an entry exceeds the initial [pred_prob = -1]. *)
Definition above_start (e : Z * F32.t) : bool := F32.ltb F32.minus_one (snd e).

(** The state of the scan is the initial one or carries a probability above
    the initial one. *)
Definition scan_state (st : Z * F32.t) : Prop :=
  st = (-1, F32.minus_one) \/ above_start st = true.

(** The entries that the scan can select. *)
Fixpoint eligible (m : PredMap) : PredMap :=
  match m with
  | [] => []
  | e :: m' => if above_start e then e :: eligible m' else eligible m'
  end.

(** The depths of the training calls of a trace, in order. *)
Fixpoint train_depths `{basic_tree} (tr : list event) : list Z :=
  match tr with
  | [] => []
  | EvTrain _ _ param :: tr' => max_depth param :: train_depths tr'
  | _ :: tr' => train_depths tr'
  end.





(** * Properties *)

(** ** Order of single-precision numbers *)

Module F32Facts.

Lemma ltb_not_nan x y : F32.ltb x y = true -> F32.is_nan x = false /\ F32.is_nan y = false.
Proof. unfold_order. by_cases x; by_cases y; auto. Qed.

Lemma leb_refl x : F32.is_nan x = false -> F32.leb x x = true.
Proof.
  unfold_order. by_cases x; intros _; rewrite Z.compare_refl, Pos.compare_refl; reflexivity.
Qed.

Lemma ltb_leb x y : F32.ltb x y = true -> F32.leb x y = true.
Proof. unfold F32.ltb, F32.leb, SFltb, SFleb. destruct (SFcompare x y) as [[]|]; congruence. Qed.

Lemma not_ltb_leb x y :
  F32.is_nan x = false -> F32.is_nan y = false -> F32.ltb x y = false -> F32.leb y x = true.
Proof.
  unfold_order. by_cases x; by_cases y; intros _ _ H; order_cases.
Qed.

Lemma leb_ltb_trans x y z :
  F32.leb x y = true -> F32.ltb y z = true -> F32.ltb x z = true.
Proof.
  unfold_order. by_cases x; by_cases y; by_cases z; intros H1 H2; order_cases.
Qed.

Lemma ltb_leb_absurd x y : F32.ltb x y = true -> F32.leb y x = true -> False.
Proof.
  unfold_order. by_cases x; by_cases y; intros H1 H2; order_cases.
Qed.

End F32Facts.

(** ** Exact single-precision arithmetic on small integers *)

Module F32Exact.

Lemma shifted_S (k : nat) (q : positive) : shifted (S k) q = xO (shifted k q).
Proof. reflexivity. Qed.

Lemma shifted_add (j k : nat) (q : positive) : shifted j (shifted k q) = shifted (j + k) q.
Proof. unfold shifted. rewrite Nat.iter_add. reflexivity. Qed.

Lemma shifted_Z (k : nat) (q : positive) : Zpos (shifted k q) = Zpos q * 2 ^ Z.of_nat k.
Proof.
  induction k as [|k IH]; [simpl; lia|].
  rewrite shifted_S, Pos2Z.inj_xO, IH, Nat2Z.inj_succ, Z.pow_succ_r by lia. lia.
Qed.

Lemma digits_shifted (k : nat) (q : positive) :
  Zpos (digits2_pos (shifted k q)) = Zpos (digits2_pos q) + Z.of_nat k.
Proof.
  induction k as [|k IH]; [simpl; lia|].
  rewrite shifted_S. cbn [digits2_pos]. rewrite Pos2Z.inj_succ, IH. lia.
Qed.

Lemma shl_align_shifted (m : positive) (e e' : Z) :
  shl_align m e e' = (shifted (Z.to_nat (e - e')) m, Z.min e e').
Proof.
  unfold shl_align. destruct (e' - e) as [|p|p] eqn:Hd.
  - replace (e - e') with 0 by lia. f_equal. lia.
  - replace (Z.to_nat (e - e')) with 0%nat by lia. f_equal. lia.
  - replace (e - e') with (Zpos p) by lia. f_equal; [|lia].
    unfold shifted. rewrite Pos2Nat.inj_iter. reflexivity.
Qed.

Lemma iter_pos_nat {A : Type} (f : A -> A) (p : positive) :
  forall x : A, SpecFloat.iter_pos f p x = Nat.iter (Pos.to_nat p) f x.
Proof.
  induction p as [p IH|p IH|]; intros x; cbn [SpecFloat.iter_pos].
  - rewrite !IH, Pos2Nat.inj_xI.
    replace (S (2 * Pos.to_nat p)) with (Pos.to_nat p + (Pos.to_nat p + 1))%nat by lia.
    rewrite !Nat.iter_add. reflexivity.
  - rewrite !IH, Pos2Nat.inj_xO.
    replace (2 * Pos.to_nat p)%nat with (Pos.to_nat p + Pos.to_nat p)%nat by lia.
    rewrite Nat.iter_add. reflexivity.
  - reflexivity.
Qed.

Lemma shr_iter (r : shr_record) (e n : Z) :
  shr r e n = (Nat.iter (Z.to_nat n) shr_1 r, e + Z.max n 0).
Proof.
  unfold shr. destruct n as [|p|p].
  - f_equal; lia.
  - rewrite iter_pos_nat. f_equal; lia.
  - f_equal; lia.
Qed.

Lemma shr_shifted (k j : nat) (q : positive) :
  Nat.iter k shr_1 {| shr_m := Zpos (shifted (k + j) q); shr_r := false; shr_s := false |} =
    {| shr_m := Zpos (shifted j q); shr_r := false; shr_s := false |}.
Proof.
  induction k as [|k IH]; [reflexivity|].
  rewrite Nat.iter_succ_r. cbn [Nat.add]. rewrite shifted_S. cbn [shr_1 orb]. exact IH.
Qed.

Lemma fexp_32 (e : Z) : fexp F32.prec F32.emax e = Z.max (e - 24) (-149).
Proof. reflexivity. Qed.

(** Rounding a number that needs no rounding: [q * 2^(a + e)] with the
    mantissa [q * 2^a] cut down or padded to the exponent of its binade. *)
Lemma binary_round_exact (q : positive) (a : nat) (e : Z) :
  let t := fexp F32.prec F32.emax (Zpos (digits2_pos q) + Z.of_nat a + e) in
  0 <= Z.of_nat a + e - t -> t <= 104 ->
  binary_round F32.prec F32.emax false (shifted a q) e =
    S754_finite false (shifted (Z.to_nat (Z.of_nat a + e - t)) q) t.
Proof.
  intros t Hrep Hmax. unfold binary_round.
  rewrite digits_shifted. fold t. rewrite shl_align_shifted, shifted_add.
  unfold binary_round_aux, shr_fexp. cbn [shr_record_of_loc Zdigits2].
  rewrite digits_shifted.
  replace (Zpos (digits2_pos q) + Z.of_nat (Z.to_nat (e - t) + a) + Z.min e t)
    with (Zpos (digits2_pos q) + Z.of_nat a + e) by lia.
  fold t. rewrite shr_iter.
  replace (Z.to_nat (e - t) + a)%nat
    with (Z.to_nat (t - Z.min e t) + Z.to_nat (Z.of_nat a + e - t))%nat by lia.
  rewrite shr_shifted. cbn [shr_m loc_of_shr_record round_nearest_even Zdigits2].
  rewrite digits_shifted.
  replace (Z.min e t + Z.max (t - Z.min e t) 0) with t by lia.
  replace (Zpos (digits2_pos q) + Z.of_nat (Z.to_nat (Z.of_nat a + e - t)) + t)
    with (Zpos (digits2_pos q) + Z.of_nat a + e) by lia.
  fold t. rewrite Z.sub_diag. cbn [shr shr_m].
  destruct (Z.leb_spec t (F32.emax - F32.prec)) as [_|Hgt]; [reflexivity|].
  unfold F32.emax, F32.prec in Hgt. lia.
Qed.

Lemma digits_lower (p : positive) : 2 ^ Zpos (digits2_pos p) <= 2 * Zpos p.
Proof.
  induction p as [p IH|p IH|]; cbn [digits2_pos]; [| |reflexivity];
    rewrite Pos2Z.inj_succ, Z.pow_succ_r by lia; lia.
Qed.

Lemma digits_le_24 (p : positive) : Zpos p < 2 ^ 24 -> Zpos (digits2_pos p) <= 24.
Proof.
  intros Hp. destruct (Z.le_gt_cases (Zpos (digits2_pos p)) 24) as [Hle|Hgt]; [exact Hle|].
  exfalso. pose proof (digits_lower p) as Hlow.
  assert (H25 : 2 ^ 25 <= 2 ^ Zpos (digits2_pos p)) by (apply Z.pow_le_mono_r; lia).
  change (2 ^ 25) with (2 * 2 ^ 24) in H25. lia.
Qed.

(** A positive integer below [2^24] converts without rounding. *)
Lemma of_Z_pos (p : positive) :
  Zpos p < 2 ^ 24 ->
  F32.of_Z (Zpos p) =
    S754_finite false (shifted (Z.to_nat (24 - Zpos (digits2_pos p))) p)
      (Zpos (digits2_pos p) - 24).
Proof.
  intros Hp. pose proof (digits_le_24 p Hp) as Hd.
  unfold F32.of_Z, binary_normalize.
  change p with (shifted 0 p) at 1.
  rewrite binary_round_exact; rewrite fexp_32; [|lia..].
  f_equal; [f_equal|]; lia.
Qed.

(** [x + 1] is exact on the integers below [2^24]. *)
Lemma add_one_exact (p : positive) :
  Zpos p < 2 ^ 24 -> F32.add (F32.of_Z (Zpos p)) F32.one = F32.of_Z (Zpos p + 1).
Proof.
  intros Hp. destruct (Z.eq_dec (Zpos p + 1) (2 ^ 24)) as [Htop | Htop].
  - replace p with 16777215%positive by lia. vm_compute. reflexivity.
  - pose proof (digits_le_24 p Hp) as Hd.
    assert (Hp1 : Zpos (p + 1) < 2 ^ 24) by lia.
    pose proof (digits_le_24 (p + 1) Hp1) as Hd1.
    rewrite (of_Z_pos p Hp). unfold F32.add, F32.one, SFadd.
    rewrite !shl_align_shifted. cbn [fst cond_Zopp]. rewrite shifted_add.
    replace (Z.min (Zpos (digits2_pos p) - 24) (-23)) with (-23) by lia.
    replace (Z.to_nat (Zpos (digits2_pos p) - 24 - -23) +
             Z.to_nat (24 - Zpos (digits2_pos p)))%nat with 23%nat by lia.
    change (Z.to_nat (-23 - -23)) with 0%nat.
    change (shifted 0 8388608) with (shifted 23 1).
    assert (Hsum : Zpos (shifted 23 p) + Zpos (shifted 23 1) = Zpos (shifted 23 (p + 1))).
    { rewrite !shifted_Z. lia. }
    rewrite Hsum. change (Zpos p + 1) with (Zpos (p + 1)).
    unfold F32.of_Z, binary_normalize.
    change (p + 1)%positive with (shifted 0 (p + 1)) at 2.
    rewrite !binary_round_exact; rewrite ?fexp_32; try lia.
    f_equal; [f_equal|]; lia.
Qed.

(** Counting by [+= 1] is exact up to [2^24]. *)
Lemma count_exact (n : nat) : (n <= 2 ^ 24)%nat -> F32.count n = F32.of_nat n.
Proof.
  induction n as [|n IH]; intros Hn; [reflexivity|].
  unfold F32.count in *. rewrite Nat.iter_succ, IH by lia.
  destruct n as [|n]; [reflexivity|].
  assert (H24 : Z.of_nat (2 ^ 24) = 2 ^ 24) by (rewrite Nat2Z.inj_pow; reflexivity).
  unfold F32.of_nat. rewrite (Nat2Z.inj_succ (S n)).
  destruct (Z.of_nat (S n)) as [|p|p] eqn:Hz; try lia.
  rewrite add_one_exact by lia. f_equal.
Qed.

End F32Exact.

(** ** The model at small inputs *)

Example lit_1e_5_rounded : F32.div (F32.of_Z 1) (F32.of_Z 100000) = F32.lit_1e_5.
Proof. vm_compute. reflexivity. Qed.

Example lit_0_1_rounded : F32.div (F32.of_Z 1) (F32.of_Z 10) = F32.lit_0_1.
Proof. vm_compute. reflexivity. Qed.

Example split_merges_runs : boost_split ",a,,b," (is_any_of ",") = [""; "a"; "b"; ""].
Proof. reflexivity. Qed.

Example split_line_trims : split_line (" a ,b" +:+ String "013"%char "") = ["a"; "b"].
Proof. reflexivity. Qed.

Example getline_fits :
  getline {| rdbuf := "ab" +:+ Sample.nl +:+ "c"; eofbit := false; failbit := false |} 3 =
    ("ab", {| rdbuf := "c"; eofbit := false; failbit := false |}).
Proof. reflexivity. Qed.

Example getline_overflows :
  getline {| rdbuf := "abc" +:+ Sample.nl; eofbit := false; failbit := false |} 3 =
    ("ab", {| rdbuf := "c" +:+ Sample.nl; eofbit := false; failbit := true |}).
Proof. reflexivity. Qed.

Example getline_at_end :
  getline {| rdbuf := ""; eofbit := false; failbit := false |} 3 =
    ("", {| rdbuf := ""; eofbit := true; failbit := true |}).
Proof. reflexivity. Qed.

Example pred_class_tie : pred_class SampleData.coin = 0.
Proof. reflexivity. Qed.

Example pred_class_empty : pred_class [] = -1.
Proof. reflexivity. Qed.

Example pred_class_nan : pred_class [(7, S754_nan)] = -1.
Proof. reflexivity. Qed.

Example config_size : size (GetDataConfig ∅) = 9%nat.
Proof. reflexivity. Qed.

(** ** Programs *)

Section Programs.
Context `{basic_tree}.

Lemma call_ok_bind {A B : Type} (a : A) (f : A -> prog B) : call (Ok a) ≫= f = f a.
Proof. unfold call, mbind, prog_bind. destruct (f a); reflexivity. Qed.

Lemma at_lookup {A : Type} (v : list A) (k : nat) (x : A) : v !! k = Some x -> at_ v k = Ok x.
Proof. unfold at_. intros ->. reflexivity. Qed.

End Programs.

(** ** The arg-max scan *)

Lemma scan_inv_step (m : PredMap) (st e : Z * F32.t) :
  F32.ltb F32.minus_one (snd e) = true ->
  (m = [] /\ st = (-1, F32.minus_one)) \/ scan_inv m st ->
  scan_inv (m ++ [e]) (argmax_step st e).
Proof.
  intros He [[-> ->] | (i & Hi & Hmax & Hfirst)].
  - simpl. rewrite He. exists 0%nat. destruct e as [c p]. simpl in *.
    destruct (F32Facts.ltb_not_nan _ _ He) as [_ Hp].
    split; [reflexivity|]. split.
    + intros [|j] e' Hj; simpl in Hj; [|discriminate].
      injection Hj as <-. apply F32Facts.leb_refl, Hp.
    + intros j e' _ Hlt. lia.
  - destruct st as [pred_c pred_prob], e as [c p]. simpl in *.
    destruct (F32Facts.ltb_not_nan _ _ He) as [_ Hp].
    assert (Hst : F32.is_nan pred_prob = false).
    { pose proof (Hmax i _ Hi) as Hrefl. simpl in Hrefl.
      destruct pred_prob; try reflexivity. discriminate Hrefl. }
    destruct (F32.ltb pred_prob p) eqn:Hlt.
    + exists (length m). split; [apply list_lookup_middle; reflexivity|]. split.
      * intros j e' Hj. apply lookup_app_Some in Hj as [Hj | [_ Hj]].
        -- apply F32Facts.ltb_leb. eapply F32Facts.leb_ltb_trans; [apply (Hmax j e' Hj)|exact Hlt].
        -- apply list_lookup_singleton_Some in Hj as [_ <-]. apply F32Facts.leb_refl, Hp.
      * intros j e' Hj Hji. rewrite lookup_app_l in Hj by exact Hji.
        eapply F32Facts.leb_ltb_trans; [apply (Hmax j e' Hj)|exact Hlt].
    + exists i. split; [apply lookup_app_l_Some, Hi|]. split.
      * intros j e' Hj. apply lookup_app_Some in Hj as [Hj | [_ Hj]].
        -- apply (Hmax j e' Hj).
        -- apply list_lookup_singleton_Some in Hj as [_ <-]. simpl.
           apply F32Facts.not_ltb_leb; assumption.
      * intros j e' Hj Hji. apply (Hfirst j e'); [|exact Hji].
        rewrite lookup_app_l in Hj; [exact Hj|]. apply lookup_lt_Some in Hi. lia.
Qed.

Lemma argmax_scan_inv (m : PredMap) :
  Forall (fun e => F32.ltb F32.minus_one (snd e) = true) m ->
  (m = [] /\ argmax_scan m = (-1, F32.minus_one)) \/ scan_inv m (argmax_scan m).
Proof.
  unfold argmax_scan. induction m as [|e m IH] using rev_ind; intros Hm.
  - left. split; reflexivity.
  - right. apply Forall_app in Hm as [Hm He]. apply Forall_inv in He.
    rewrite fold_left_app. simpl. apply scan_inv_step; [exact He|].
    destruct (IH Hm) as [[-> Hinit] | Hinv]; [left; split; [reflexivity|exact Hinit] | right; exact Hinv].
Qed.

Lemma first_argmax_unique (m : PredMap) (c1 c2 : Z) :
  first_argmax m c1 -> first_argmax m c2 -> c1 = c2.
Proof.
  intros (i1 & p1 & H1 & Hmax1 & Hfirst1) (i2 & p2 & H2 & Hmax2 & Hfirst2).
  destruct (Nat.lt_trichotomy i1 i2) as [Hlt | [-> | Hlt]].
  - exfalso. eapply F32Facts.ltb_leb_absurd.
    + apply (Hfirst2 i1 _ H1 Hlt).
    + apply (Hmax1 i2 _ H2).
  - congruence.
  - exfalso. eapply F32Facts.ltb_leb_absurd.
    + apply (Hfirst1 i2 _ H2 Hlt).
    + apply (Hmax2 i1 _ H1).
Qed.

Lemma pred_class_first_argmax (m : PredMap) (c : Z) :
  probabilities m -> pred_class m = c <-> first_argmax m c.
Proof.
  intros [Hne Hm].
  assert (Hscan : first_argmax m (pred_class m)).
  { destruct (argmax_scan_inv m Hm) as [[-> _] | (i & Hi & Hmax & Hfirst)]; [congruence|].
    unfold pred_class. destruct (argmax_scan m) as [pc pp]. exists i, pp. auto. }
  split.
  - intros <-. exact Hscan.
  - intros Hc. eapply first_argmax_unique; eassumption.
Qed.

(** ** The metrics *)

Section Metrics.
Context `{basic_tree}.

Lemma recall_loop_counts (X : Dataset) (classes : list Z) :
  Forall2 (fun row c => row !! 0%nat = Some (Category c)) X classes ->
  forall (preds : list PredMap) (k : nat) (acc : F32.t),
    (length preds + k <= length X)%nat ->
    recall_loop X k preds acc =
      Ok (Nat.iter (hits preds (drop k classes)) (fun a => F32.add a F32.one) acc).
Proof.
  intros HX preds. induction preds as [|m preds IH]; intros k acc Hlen.
  - reflexivity.
  - simpl in Hlen.
    destruct (lookup_lt_is_Some_2 X k ltac:(lia)) as [row Hrow].
    destruct (Forall2_lookup_l _ _ _ _ _ HX Hrow) as (c & Hc & Hcat).
    cbn [recall_loop]. rewrite (at_lookup _ _ _ Hrow). cbn [mbind outcome_bind].
    rewrite (at_lookup _ _ _ Hcat). cbn [mbind outcome_bind VALUE_i].
    rewrite IH by lia. rewrite (drop_S _ _ _ Hc). cbn [hits]. unfold hit.
    destruct (pred_class m =? c)%Z; [|reflexivity].
    change (1 + ?n)%nat with (S n). rewrite Nat.iter_succ_r. reflexivity.
Qed.

Lemma hits_le (preds : list PredMap) (classes : list Z) :
  (hits preds classes <= length preds)%nat.
Proof.
  revert classes. induction preds as [|m preds IH]; intros [|c classes]; cbn [hits length];
    try lia.
  specialize (IH classes). destruct (hit m c); lia.
Qed.

Lemma mapd_loop_sums (X : Dataset) (truths : list F32.t) :
  Forall2 (fun row t => row !! 0%nat = Some (Measurement t)) X truths ->
  forall (preds : list PredMap) (k : nat) (acc : F32.t),
    (length preds + k <= length X)%nat ->
    mapd_loop X k preds acc =
      Ok (fold_left F32.add (zip_with abs_pct_dev preds (drop k truths)) acc).
Proof.
  intros HX preds. induction preds as [|m preds IH]; intros k acc Hlen.
  - reflexivity.
  - simpl in Hlen.
    destruct (lookup_lt_is_Some_2 X k ltac:(lia)) as [row Hrow].
    destruct (Forall2_lookup_l _ _ _ _ _ HX Hrow) as (t & Ht & Hmeas).
    cbn [mapd_loop]. rewrite (at_lookup _ _ _ Hrow). cbn [mbind outcome_bind].
    rewrite (at_lookup _ _ _ Hmeas). cbn [mbind outcome_bind VALUE_f].
    rewrite IH by lia. rewrite (drop_S _ _ _ Ht). reflexivity.
Qed.

Lemma map_at_elem (m : PredMap) (key : Z) (p : F32.t) :
  NoDup (fst <$> m) -> (key, p) ∈ m -> map_at m key = p.
Proof.
  induction m as [|[c q] m IH]; intros Hnd Hin.
  - apply elem_of_nil in Hin. contradiction.
  - rewrite fmap_cons in Hnd. apply NoDup_cons in Hnd as [Hc Hnd]. simpl.
    apply elem_of_cons in Hin as [Heq | Hin].
    + injection Heq as <- <-. rewrite Z.eqb_refl. reflexivity.
    + destruct (Z.eqb_spec c key) as [-> | _]; [|apply IH; assumption].
      exfalso. apply Hc. apply list_elem_of_fmap. exists (key, p). split; [reflexivity|exact Hin].
Qed.

Lemma floored_above (truth : F32.t) : F32.leb F32.lit_1e_5 (floored truth) = true.
Proof.
  unfold floored, F32.max. destruct (F32.ltb F32.lit_1e_5 truth) eqn:Hlt.
  - apply F32Facts.ltb_leb, Hlt.
  - reflexivity.
Qed.

Lemma test_tree_first (tree : CTree) (X : Dataset) (preds : list PredMap)
    (X_0 : Row) (v : VALUE) :
  Evaluate tree X = Ok preds -> X !! 0%nat = Some X_0 -> X_0 !! 0%nat = Some v ->
  test_tree tree X =
    if (VALUE_dtype v =? 0)%Z then
      recalling ← call (recall_loop X 0 preds F32.zero);
      cout [OStr "REC: "; OFloat (F32.div recalling (F32.of_nat (length X))); OEndl]
    else
      MAPD ← call (mapd_loop X 0 preds F32.zero);
      cout [OStr "MAPD: "; OFloat (F32.div MAPD (F32.of_nat (length X))); OEndl].
Proof.
  intros Hev HX0 Hv. unfold test_tree. rewrite Hev, call_ok_bind.
  rewrite (at_lookup _ _ _ HX0), call_ok_bind.
  rewrite (at_lookup _ _ _ Hv), call_ok_bind.
  destruct v; reflexivity.
Qed.

Lemma call_then_line {A : Type} (r : outcome A) (label : string) (f : A -> F32.t) :
  prints_only label (a ← call r; cout [OStr label; OFloat (f a); OEndl]).
Proof.
  destruct r as [a| |].
  - right. exists (f a). rewrite call_ok_bind. reflexivity.
  - left. split; [reflexivity|discriminate].
  - left. split; [reflexivity|discriminate].
Qed.

End Metrics.

(** ** Filling one row *)

Section FillRow.
Context `{lexical_cast}.
Variable data_config : gmap string DATA_CONFIG.
Variable col2head : list string.

Lemma vector_set_Ok {A : Type} (v v' : list A) (i : Z) (x : A) :
  vector_set v i x = Ok v' ->
  (0 <= i < Z.of_nat (length v)) /\ v' = <[Z.to_nat i := x]> v.
Proof.
  unfold vector_set. destruct (0 <=? i) eqn:H0; destruct (i <? Z.of_nat (length v)) eqn:H1;
    simpl; intros Heq; try discriminate.
  injection Heq as <-. split; [lia|reflexivity].
Qed.

Lemma vector_set_in_range {A : Type} (v : list A) (i : Z) (x : A) :
  0 <= i < Z.of_nat (length v) -> vector_set v i x = Ok (<[Z.to_nat i := x]> v).
Proof.
  intros Hi. unfold vector_set.
  destruct (Z.leb_spec 0 i); [|lia]. destruct (Z.ltb_spec i (Z.of_nat (length v))); [|lia].
  reflexivity.
Qed.

Lemma parse_cell_value (cfg : DATA_CONFIG) (cell : string) (val : VALUE) :
  dtype cfg = "value" ->
  parse_cell cfg cell = Ok val <->
  exists x, lexical_cast_float cell = Some x /\ val = Measurement x.
Proof.
  intros Hd. unfold parse_cell. rewrite Hd. simpl.
  destruct (lexical_cast_float cell) as [x|]; simpl; split.
  - intros [= <-]. eauto.
  - intros (x' & [= <-] & ->). reflexivity.
  - discriminate.
  - intros (x' & Hx & _). discriminate.
Qed.

Lemma parse_cell_class (cfg : DATA_CONFIG) (cell : string) (val : VALUE) :
  dtype cfg <> "value" ->
  parse_cell cfg cell = Ok val <->
  exists z, lexical_cast_int cell = Some z /\ val = Category z.
Proof.
  intros Hd. unfold parse_cell. apply String.eqb_neq in Hd. rewrite Hd.
  destruct (lexical_cast_int cell) as [z|]; simpl; split.
  - intros [= <-]. eauto.
  - intros (z' & [= <-] & ->). reflexivity.
  - discriminate.
  - intros (z' & Hz & _). discriminate.
Qed.

Lemma parse_cell_ok (n : nat) (cfg : DATA_CONFIG) (cell : string) :
  cell_ok n cfg cell -> exists val, parse_cell cfg cell = Ok val.
Proof.
  intros (_ & Hv & Hc). destruct (String.eqb_spec (dtype cfg) "value") as [Hd | Hd].
  - destruct (Hv Hd) as [x Hx]. exists (Measurement x). apply parse_cell_value; eauto.
  - destruct (Hc Hd) as [z Hz]. exists (Category z). apply parse_cell_class; eauto.
Qed.

(** One iteration of the column loop, when it goes through. *)
Lemma fill_row_cons (col : nat) (cell : string) (cells : list string) (data data' : Row) :
  fill_row data_config col2head col (cell :: cells) data = Ok data' ->
  exists head, col2head !! col = Some head /\
    match data_config !! head with
    | None => fill_row data_config col2head (S col) cells data = Ok data'
    | Some cfg =>
        exists val, parse_cell cfg cell = Ok val /\
          0 <= pos cfg < Z.of_nat (length data) /\
          fill_row data_config col2head (S col) cells (<[Z.to_nat (pos cfg) := val]> data) = Ok data'
    end.
Proof.
  cbn [fill_row]. unfold at_. destruct (col2head !! col) as [head|]; [|discriminate].
  cbn [mbind outcome_bind]. intros Hrow. exists head. split; [reflexivity|].
  destruct (data_config !! head) as [cfg|]; [|exact Hrow].
  destruct (parse_cell cfg cell) as [val| |]; try discriminate.
  cbn [mbind outcome_bind] in Hrow.
  destruct (vector_set data (pos cfg) val) as [data1| |] eqn:Hset; try discriminate.
  apply vector_set_Ok in Hset as [Hrange ->]. exists val. auto.
Qed.

(** The row keeps its length, and a slot that none of the remaining
    columns writes keeps its value. *)
Lemma fill_row_frame (cells : list string) :
  forall (col : nat) (data data' : Row),
    fill_row data_config col2head col cells data = Ok data' ->
    length data' = length data /\
    forall p : Z, 0 <= p ->
      no_writer data_config col2head col (col + length cells) p ->
      data' !! Z.to_nat p = data !! Z.to_nat p.
Proof.
  induction cells as [|cell cells IH]; intros col data data' Hrow.
  - injection Hrow as <-. auto.
  - apply fill_row_cons in Hrow as (head & Hhead & Hrow).
    destruct (data_config !! head) as [cfg|] eqn:Hcfg.
    + destruct Hrow as (val & _ & Hrange & Hrow).
      apply IH in Hrow as [Hlen Hkeep]. rewrite length_insert in Hlen.
      split; [exact Hlen|]. intros p Hp Hnone.
      rewrite Hkeep; [|exact Hp|].
      * apply list_lookup_insert_ne.
        assert (pos cfg <> p) by (apply (Hnone col head cfg); simpl; [lia|assumption..]).
        lia.
      * intros col' head' cfg' Hcol'. apply Hnone. simpl. lia.
    + apply IH in Hrow as [Hlen Hkeep]. split; [exact Hlen|].
      intros p Hp Hnone. apply Hkeep; [exact Hp|].
      intros col' head' cfg' Hcol'. apply Hnone. simpl. lia.
Qed.

(** The value of a configured cell is in its slot at the end, unless a
    later column writes the same slot. *)
Lemma fill_row_stores_at (cells : list string) :
  forall (col : nat) (data data' : Row),
    fill_row data_config col2head col cells data = Ok data' ->
    forall (j : nat) (cell head : string) (cfg : DATA_CONFIG),
      cells !! j = Some cell -> col2head !! (col + j)%nat = Some head ->
      data_config !! head = Some cfg ->
      no_writer data_config col2head (S (col + j)) (col + length cells) (pos cfg) ->
      exists val, parse_cell cfg cell = Ok val /\ data' !! Z.to_nat (pos cfg) = Some val.
Proof.
  induction cells as [|cell0 cells IH]; intros col data data' Hrow j cell head cfg Hj Hhead Hcfg Hlast.
  - discriminate.
  - apply fill_row_cons in Hrow as (head0 & Hhead0 & Hrow). destruct j as [|j].
    + rewrite Nat.add_0_r in Hhead, Hlast. injection Hj as <-.
      rewrite Hhead in Hhead0. injection Hhead0 as <-. rewrite Hcfg in Hrow.
      destruct Hrow as (val & Hval & Hrange & Hrow). exists val. split; [exact Hval|].
      apply fill_row_frame in Hrow as [_ Hkeep]. rewrite Hkeep; [|lia|].
      * apply list_lookup_insert_eq. lia.
      * intros col' head' cfg' Hcol'. apply Hlast. simpl in *. lia.
    + simpl in Hj.
      assert (Hrow' : exists data1, fill_row data_config col2head (S col) cells data1 = Ok data').
      { destruct (data_config !! head0); [destruct Hrow as (? & _ & _ & ?)|]; eauto. }
      destruct Hrow' as [data1 Hrow'].
      apply (IH _ _ _ Hrow' j cell head cfg Hj).
      * rewrite <- Hhead. f_equal. lia.
      * exact Hcfg.
      * intros col' head' cfg' Hcol'. apply Hlast. simpl in *. lia.
Qed.

(** The column loop goes through when the header names every column and
    every configured cell is acceptable. *)
Lemma fill_row_total (cells : list string) :
  forall (col : nat) (data : Row),
    (col + length cells <= length col2head)%nat ->
    (forall j cell head cfg,
       cells !! j = Some cell -> col2head !! (col + j)%nat = Some head ->
       data_config !! head = Some cfg -> cell_ok (length data) cfg cell) ->
    exists data', fill_row data_config col2head col cells data = Ok data'.
Proof.
  induction cells as [|cell cells IH]; intros col data Hlen Hok.
  - exists data. reflexivity.
  - simpl in Hlen. destruct (lookup_lt_is_Some_2 col2head col ltac:(lia)) as [head Hhead].
    cbn [fill_row]. rewrite (at_lookup _ _ _ Hhead). cbn [mbind outcome_bind].
    assert (Hrest : forall data1 : Row, length data1 = length data ->
              exists data', fill_row data_config col2head (S col) cells data1 = Ok data').
    { intros data1 Hlen1. apply IH; [lia|]. intros j c h cfg Hj Hh Hc. rewrite Hlen1.
      apply (Hok (S j) c h cfg); [exact Hj| |exact Hc]. rewrite <- Hh. f_equal. lia. }
    destruct (data_config !! head) as [cfg|] eqn:Hcfg; [|apply Hrest; reflexivity].
    assert (Hcell : cell_ok (length data) cfg cell).
    { apply (Hok 0%nat cell head cfg); [reflexivity| |exact Hcfg]. rewrite Nat.add_0_r. exact Hhead. }
    destruct (parse_cell_ok _ _ _ Hcell) as [val ->]. cbn [mbind outcome_bind].
    rewrite vector_set_in_range by apply Hcell. cbn [mbind outcome_bind].
    apply Hrest. apply length_insert.
Qed.

End FillRow.

(** ** Lines of a file *)

Section Lines.

Lemma lines_not_nil (s : string) : lines s <> [].
Proof.
  destruct s as [|c s]; simpl; [discriminate|].
  destruct (Ascii.eqb c newline); [discriminate|]. destruct (lines s); discriminate.
Qed.

Lemma join_lines_cons (l : string) (ls : list string) :
  ls <> [] -> join_lines (l :: ls) = l +:+ String newline (join_lines ls).
Proof. destruct ls; [congruence|reflexivity]. Qed.

Lemma join_lines_lines (s : string) : join_lines (lines s) = s.
Proof.
  induction s as [|c s IH]; [reflexivity|]. simpl.
  destruct (Ascii.eqb_spec c newline) as [-> | Hc].
  - rewrite join_lines_cons by apply lines_not_nil. simpl. rewrite IH. reflexivity.
  - pose proof (lines_not_nil s) as Hne. destruct (lines s) as [|l ls]; [congruence|].
    destruct ls as [|l' ls].
    + simpl in *. rewrite IH. reflexivity.
    + rewrite join_lines_cons in * by discriminate. rewrite <- IH. reflexivity.
Qed.

Lemma lines_no_newline (s : string) : Forall (fun l => has_char newline l = false) (lines s).
Proof.
  induction s as [|c s IH]; simpl.
  - repeat constructor.
  - destruct (Ascii.eqb c newline) eqn:Hc.
    + constructor; [reflexivity|exact IH].
    + destruct (lines s) as [|l ls]; [repeat constructor; simpl; rewrite Hc; reflexivity|].
      apply Forall_cons in IH as [Hl Hls]. constructor; [|exact Hls].
      simpl. rewrite Hc, Hl. reflexivity.
Qed.

Lemma lines_no_char (c : ascii) (s : string) :
  has_char c s = false -> Forall (fun l => has_char c l = false) (lines s).
Proof.
  induction s as [|c' s IH]; simpl; intros Hs.
  - repeat constructor.
  - apply orb_false_iff in Hs as [Hc Hs]. specialize (IH Hs).
    destruct (Ascii.eqb c' newline).
    + constructor; [reflexivity|exact IH].
    + destruct (lines s) as [|l ls]; [repeat constructor; simpl; rewrite Hc; reflexivity|].
      apply Forall_cons in IH as [Hl Hls]. constructor; [|exact Hls].
      simpl. rewrite Hc, Hl. reflexivity.
Qed.

Lemma c_str_no_NUL (s : string) : has_char NUL s = false -> c_str s = s.
Proof.
  induction s as [|c s IH]; cbn [has_char c_str]; [reflexivity|]. intros Hs.
  apply orb_false_iff in Hs as [Hc Hs]. rewrite Hc, IH by exact Hs. reflexivity.
Qed.

Lemma append_nil (s : string) : "" +:+ s = s.
Proof. reflexivity. Qed.

Lemma append_cons (c : ascii) (a b : string) : String c a +:+ b = String c (a +:+ b).
Proof. reflexivity. Qed.

Lemma length_append (a b : string) :
  String.length (a +:+ b) = (String.length a + String.length b)%nat.
Proof.
  induction a as [|c a IH]; [reflexivity|].
  rewrite append_cons. cbn [String.length]. rewrite IH. reflexivity.
Qed.

Lemma length_join_cons (l : string) (ls : list string) :
  (String.length l + String.length (join_lines ls) <= String.length (join_lines (l :: ls)))%nat.
Proof.
  destruct ls as [|l' ls]; [simpl; lia|].
  rewrite (join_lines_cons l (l' :: ls)) by discriminate. rewrite length_append.
  cbn [String.length]. lia.
Qed.

(** Extraction of a line that fits the buffer and is followed by a newline. *)
Lemma getline_chars_newline (l rest : string) :
  has_char newline l = false ->
  forall room : nat, (String.length l <= room)%nat ->
    getline_chars room (l +:+ String newline rest) =
      {| stored := l; rest := rest; hit_eof := false; hit_limit := false;
         extracted := S (String.length l) |}.
Proof.
  induction l as [|c l IH]; rewrite ?append_nil, ?append_cons;
    cbn [has_char String.length getline_chars]; intros Hl room Hroom.
  - rewrite Ascii.eqb_refl. reflexivity.
  - apply orb_false_iff in Hl as [-> Hl]. destruct room as [|room]; [lia|].
    rewrite IH by (assumption || lia). reflexivity.
Qed.

(** Extraction of a last line that fits the buffer. *)
Lemma getline_chars_eof (l : string) :
  has_char newline l = false ->
  forall room : nat, (String.length l <= room)%nat ->
    getline_chars room l =
      {| stored := l; rest := ""; hit_eof := true; hit_limit := false;
         extracted := String.length l |}.
Proof.
  induction l as [|c l IH]; cbn [has_char String.length getline_chars];
    intros Hl room Hroom.
  - reflexivity.
  - apply orb_false_iff in Hl as [-> Hl]. destruct room as [|room]; [lia|].
    rewrite IH by (assumption || lia). reflexivity.
Qed.

Lemma getline_stream_of (l : string) (ls : list string) :
  has_char newline l = false -> (String.length l <= 2047)%nat ->
  fst (getline (stream_of (l :: ls)) 2048) = l /\
  (l <> "" -> snd (getline (stream_of (l :: ls)) 2048) = stream_of ls).
Proof.
  intros Hl Hlen. unfold getline, stream_of. cbn [eofbit failbit rdbuf orb].
  change (2048 - 1)%nat with 2047%nat. destruct ls as [|l' ls].
  - cbn [join_lines]. rewrite getline_chars_eof by assumption. cbn.
    split; [reflexivity|]. intros Hne. destruct l; [congruence|reflexivity].
  - rewrite join_lines_cons by discriminate.
    rewrite getline_chars_newline by assumption. cbn. auto.
Qed.

End Lines.

(** ** The reading loop *)

Section ReadLoop.
Context `{basic_tree, lexical_cast}.
Variable data_config : gmap string DATA_CONFIG.

Lemma split_compress_not_nil (pred : ascii -> bool) (s : string) :
  forall in_run : bool, split_compress pred in_run s <> [].
Proof.
  induction s as [|c s IH]; intros in_run; cbn [split_compress]; [discriminate|].
  destruct (pred c).
  - destruct in_run; [apply IH|discriminate].
  - specialize (IH false). destruct (split_compress pred false s); [congruence|discriminate].
Qed.

Lemma split_line_not_nil (line : string) : split_line line <> [].
Proof.
  unfold split_line, boost_split.
  pose proof (split_compress_not_nil (is_any_of ",") line false) as Hne.
  destruct (split_compress (is_any_of ",") false line); [congruence|discriminate].
Qed.

Lemma getline_chars_measure (buf : string) :
  forall room : nat,
    (String.length (rest (getline_chars room buf)) + extracted (getline_chars room buf)
     = String.length buf)%nat /\
    (String.length (stored (getline_chars room buf))
     <= extracted (getline_chars room buf))%nat.
Proof.
  induction buf as [|c buf IH]; intros room; cbn [getline_chars].
  - cbn. lia.
  - destruct (Ascii.eqb c newline); [cbn; lia|].
    destruct room as [|room]; [cbn; lia|].
    destruct (IH room) as [Hrest Hstored]. cbn [rest extracted stored String.length]. lia.
Qed.

(** The loop ends before its fuel does. *)
Lemma read_loop_fuel (fuel : nat) :
  forall (fs : ifstream) (col2head : list string) (data_all : Dataset),
    (String.length (rdbuf fs) < fuel)%nat ->
    is_Some (read_loop fuel data_config fs col2head data_all).
Proof.
  induction fuel as [|fuel IH]; intros fs col2head data_all Hfuel; [lia|].
  cbn [read_loop]. destruct (eofbit fs) eqn:Heof; [eauto|].
  destruct (getline fs 2048) as [line_content fs'] eqn:Hget.
  destruct (c_str line_content) as [|c line] eqn:Hline; [eauto|].
  assert (Hless : (String.length (rdbuf fs') < fuel)%nat).
  { unfold getline in Hget. rewrite Heof in Hget. cbn [orb] in Hget.
    destruct (failbit fs).
    - injection Hget as <- <-. cbn in Hline. discriminate Hline.
    - set (x := getline_chars (2048 - 1) (rdbuf fs)) in *.
      injection Hget as <- <-. cbn [rdbuf].
      destruct (getline_chars_measure (rdbuf fs) (2048 - 1)) as [Hrest Hstored].
      fold x in Hrest, Hstored.
      destruct (stored x); [cbn in Hline; discriminate Hline|].
      cbn [String.length] in Hstored. lia. }
  destruct col2head as [|h hs]; [apply IH, Hless|].
  destruct (fill_row data_config (h :: hs) 0 (split_line (String c line))
              (replicate (size data_config) VALUE_default)); eauto.
Qed.

Lemma read_all_fuel (content : string) :
  is_Some (read_loop (S (String.length content)) data_config
             {| rdbuf := content; eofbit := false; failbit := false |} [] []).
Proof. apply read_loop_fuel. cbn. lia. Qed.

Lemma mapM_cons_Ok {A B : Type} (f : A -> outcome B) (x : A) (l : list A) (y : B) :
  f x = Ok y -> mapM f (x :: l) = (k ← mapM f l; Ok (y :: k)).
Proof. intros Hx. cbn [mapM]. rewrite Hx. reflexivity. Qed.

(** With the header known, the loop appends one row per line up to the
    first empty line, and stops at the first row that cannot be built. *)
Lemma read_loop_rows (col2head : list string) (ls : list string) :
  col2head <> [] ->
  Forall (fun l => has_char newline l = false) ls ->
  Forall (fun l => has_char NUL l = false) ls ->
  Forall (fun l => (String.length l <= 2047)%nat) (until_empty ls) ->
  forall (fuel : nat) (data_all : Dataset),
    (String.length (join_lines ls) < fuel)%nat ->
    read_loop fuel data_config (stream_of ls) col2head data_all =
      Some (rows ← mapM (row_of_line data_config col2head) (until_empty ls);
            Ok (data_all ++ rows)%list).
Proof.
  intros Hhead. induction ls as [|l ls IH]; intros Hnl Hnul Hshort fuel data_all Hfuel.
  - destruct fuel as [|fuel]; [lia|]. cbn. rewrite app_nil_r. reflexivity.
  - apply Forall_cons in Hnl as [Hl Hnl]. apply Forall_cons in Hnul as [Hl0 Hnul].
    destruct fuel as [|fuel]; [lia|].
    pose proof (length_join_cons l ls) as Hlen.
    cbn [read_loop].
    replace (eofbit (stream_of (l :: ls))) with false by (destruct ls; reflexivity).
    destruct l as [|c l].
    + destruct (getline_stream_of "" ls Hl ltac:(simpl; lia)) as [Hfst _].
      destruct (getline (stream_of ("" :: ls)) 2048) as [line_content fs'].
      simpl in Hfst. subst line_content. cbn. rewrite app_nil_r. reflexivity.
    + cbn [until_empty] in Hshort. apply Forall_cons in Hshort as [Hshort1 Hshort].
      destruct (getline_stream_of (String c l) ls Hl Hshort1) as [Hfst Hsnd].
      specialize (Hsnd ltac:(discriminate)).
      destruct (getline (stream_of (String c l :: ls)) 2048) as [line_content fs'].
      simpl in Hfst, Hsnd. subst line_content fs'.
      rewrite (c_str_no_NUL _ Hl0).
      destruct col2head as [|h0 hs] eqn:Hc2h; [congruence|]. rewrite <- Hc2h in *.
      cbn [until_empty]. fold (row_of_line data_config col2head (String c l)).
      destruct (row_of_line data_config col2head (String c l)) as [data| |] eqn:Hrow.
      * rewrite IH; try assumption.
        2:{ cbn [String.length] in Hlen. lia. }
        rewrite (mapM_cons_Ok _ _ _ _ Hrow).
        destruct (mapM (row_of_line data_config col2head) (until_empty ls)) as [rows| |];
          cbn; [|reflexivity..].
        rewrite <- app_assoc. reflexivity.
      * cbn [mapM]. rewrite Hrow. reflexivity.
      * cbn [mapM]. rewrite Hrow. reflexivity.
Qed.

(** The whole file: the first line is the header. *)
Lemma read_all_lines (ls : list string) :
  ls <> [] ->
  Forall (fun l => has_char newline l = false) ls ->
  Forall (fun l => has_char NUL l = false) ls ->
  Forall (fun l => (String.length l <= 2047)%nat) (until_empty ls) ->
  read_all data_config (join_lines ls) =
    mapM (row_of_line data_config (split_line (hd "" ls))) (tail (until_empty ls)).
Proof.
  intros Hne Hnl Hnul Hshort. destruct ls as [|l ls]; [congruence|].
  apply Forall_cons in Hnl as [Hl Hnl]. apply Forall_cons in Hnul as [Hl0 Hnul].
  pose proof (length_join_cons l ls) as Hlen.
  unfold read_all. cbn [read_loop].
  change {| rdbuf := join_lines (l :: ls); eofbit := false; failbit := false |}
    with (stream_of (l :: ls)).
  cbn [eofbit stream_of hd].
  change {| rdbuf := join_lines (l :: ls); eofbit := false; failbit := false |}
    with (stream_of (l :: ls)).
  destruct l as [|c l].
  - destruct (getline_stream_of "" ls Hl ltac:(simpl; lia)) as [Hfst _].
    destruct (getline (stream_of ("" :: ls)) 2048) as [line_content fs'].
    simpl in Hfst. subst line_content. reflexivity.
  - cbn [until_empty] in Hshort. apply Forall_cons in Hshort as [Hshort1 Hshort].
    destruct (getline_stream_of (String c l) ls Hl Hshort1) as [Hfst Hsnd].
    specialize (Hsnd ltac:(discriminate)).
    destruct (getline (stream_of (String c l :: ls)) 2048) as [line_content fs'].
    simpl in Hfst, Hsnd. subst line_content fs'.
    rewrite (c_str_no_NUL _ Hl0). cbn [app until_empty tail].
    rewrite read_loop_rows; try assumption.
    + destruct (mapM _ (until_empty ls)); reflexivity.
    + apply split_line_not_nil.
    + cbn [String.length] in Hlen. lia.
Qed.

End ReadLoop.

(** ** Traces *)

Section Traces.
Context `{basic_tree}.

Lemma bind_trace {A B : Type} (m : prog A) (f : A -> prog B) :
  m ≫= f =
    match snd m with
    | Ok a => ((fst m ++ fst (f a))%list, snd (f a))
    | Throw e => (fst m, Throw e)
    | Undefined => (fst m, Undefined)
    end.
Proof.
  destruct m as [tr [a| |]]; cbn; [|reflexivity..]. destruct (f a); reflexivity.
Qed.

Lemma bind_Ok {A B : Type} (tr : list event) (a : A) (f : A -> prog B) :
  (tr, Ok a) ≫= f = ((tr ++ fst (f a))%list, snd (f a)).
Proof. rewrite bind_trace. reflexivity. Qed.

Lemma Forall_bind {A B : Type} (P : event -> Prop) (m : prog A) (f : A -> prog B) :
  Forall P (fst m) -> (forall a, Forall P (fst (f a))) -> Forall P (fst (m ≫= f)).
Proof.
  intros Hm Hf. rewrite bind_trace. destruct (snd m); cbn; [|assumption..].
  apply Forall_app. auto.
Qed.

Lemma Forall_cout (P : event -> Prop) (items : list out_item) :
  (forall o, P (EvOut o)) -> Forall P (fst (cout items)).
Proof. intros HP. cbn. apply Forall_fmap, Forall_true. intros o. apply HP. Qed.

Lemma Forall_call {A : Type} (P : event -> Prop) (r : outcome A) : Forall P (fst (call r)).
Proof. constructor. Qed.

Lemma Forall_mret {A : Type} (P : event -> Prop) (a : A) :
  Forall P (fst (mret a : prog A)).
Proof. constructor. Qed.

(** [test_tree] only writes to the standard output. *)
Lemma test_tree_outputs (P : event -> Prop) (tree : CTree) (X : Dataset) :
  (forall o, P (EvOut o)) -> Forall P (fst (test_tree tree X)).
Proof.
  intros HP. unfold test_tree.
  apply Forall_bind; [apply Forall_call|]. intros preds.
  apply Forall_bind; [apply Forall_call|]. intros X_0.
  apply Forall_bind; [apply Forall_call|]. intros X_0_0.
  destruct (VALUE_dtype X_0_0 =? 0); [|destruct (VALUE_dtype X_0_0 =? 1)].
  - apply Forall_bind; [apply Forall_call|]. intros r. apply Forall_cout, HP.
  - apply Forall_bind; [apply Forall_call|]. intros r. apply Forall_cout, HP.
  - apply Forall_mret.
Qed.

(** When [test_tree] returns, it has printed one metric line. *)
Lemma test_tree_prints (tree : CTree) (X : Dataset) :
  snd (test_tree tree X) = Ok tt ->
  exists x, fst (test_tree tree X) = metric_line "REC: " x \/
            fst (test_tree tree X) = metric_line "MAPD: " x.
Proof.
  unfold test_tree.
  destruct (Evaluate tree X) as [preds| |]; [|discriminate..]. rewrite call_ok_bind.
  destruct (at_ X 0) as [X_0| |]; [|discriminate..]. rewrite call_ok_bind.
  destruct (at_ X_0 0) as [v| |]; [|discriminate..]. rewrite call_ok_bind.
  destruct v; cbn [VALUE_dtype Z.eqb].
  - destruct (recall_loop X 0 preds F32.zero) as [x| |]; [|discriminate..].
    rewrite call_ok_bind. intros _. eexists. left. reflexivity.
  - destruct (mapd_loop X 0 preds F32.zero) as [x| |]; [|discriminate..].
    rewrite call_ok_bind. intros _. eexists. right. reflexivity.
Qed.

Lemma test_tree_returns (tree : CTree) (X : Dataset) :
  snd (test_tree tree X) = Ok tt -> test_tree tree X = (fst (test_tree tree X), Ok tt).
Proof. destruct (test_tree tree X) as [tr r]. cbn. intros ->. reflexivity. Qed.

(** One iteration of the loop over the depths, when the engine goes
    through. *)
Lemma depth_loop_cons (d : Z) (depths : list Z) (param : CTrainParam)
    (trainset testset : Dataset) (tree : CTree) :
  loss_type param = "gini" -> min_std param = F32.lit_0_1 ->
  Train CTree_new trainset (run_param d) = Ok tree ->
  snd (test_tree tree trainset) = Ok tt ->
  snd (test_tree tree testset) = Ok tt ->
  depth_loop (d :: depths) param trainset testset =
    ((run_events d tree trainset testset
      ++ fst (depth_loop depths (run_param d) trainset testset))%list,
     snd (depth_loop depths (run_param d) trainset testset)).
Proof.
  intros Hloss Hstd Htrain Htr Hte. cbn [depth_loop].
  replace (set_max_depth param d) with (run_param d)
    by (unfold set_max_depth, run_param; rewrite Hloss, Hstd; reflexivity).
  unfold train. rewrite Htrain, bind_Ok.
  unfold cout at 1. rewrite bind_Ok. unfold cout at 1. rewrite bind_Ok.
  rewrite (test_tree_returns _ _ Htr), bind_Ok.
  unfold cout at 1. rewrite bind_Ok.
  rewrite (test_tree_returns _ _ Hte), bind_Ok.
  cbn [fst snd]. unfold run_events. f_equal.
  cbn [fmap list_fmap app max_depth run_param]. rewrite <- !app_assoc. reflexivity.
Qed.

Lemma depth_loop_params (depths : list Z) :
  forall (param : CTrainParam) (trainset testset : Dataset),
    loss_type param = "gini" -> min_std param = F32.lit_0_1 ->
    Forall (fun e => match e with
                     | EvTrain tree _ p =>
                         tree = CTree_new /\ loss_type p = "gini" /\
                         min_std p = F32.lit_0_1 /\ max_depth p ∈ depths
                     | _ => True
                     end) (fst (depth_loop depths param trainset testset)).
Proof.
  induction depths as [|d depths IH]; intros param trainset testset Hloss Hstd.
  - constructor.
  - cbn [depth_loop]. apply Forall_bind.
    { constructor; [|constructor]. cbn. repeat split; try assumption. left. }
    intros tree.
    apply Forall_bind; [apply Forall_cout; exact (fun _ => I)|]. intros _.
    apply Forall_bind; [apply Forall_cout; exact (fun _ => I)|]. intros _.
    apply Forall_bind; [apply test_tree_outputs; exact (fun _ => I)|]. intros _.
    apply Forall_bind; [apply Forall_cout; exact (fun _ => I)|]. intros _.
    apply Forall_bind; [apply test_tree_outputs; exact (fun _ => I)|]. intros _.
    eapply Forall_impl; [apply IH; assumption|].
    intros [| |tree' X p]; try exact (fun H => H).
    intros (? & ? & ? & ?). repeat split; try assumption. right. assumption.
Qed.

Lemma depth_loop_no_open (depths : list Z) :
  forall (param : CTrainParam) (trainset testset : Dataset),
    Forall (fun e => is_open e = false) (fst (depth_loop depths param trainset testset)).
Proof.
  induction depths as [|d depths IH]; intros param trainset testset.
  - constructor.
  - cbn [depth_loop]. apply Forall_bind; [repeat constructor|]. intros tree.
    apply Forall_bind; [apply Forall_cout; reflexivity|]. intros _.
    apply Forall_bind; [apply Forall_cout; reflexivity|]. intros _.
    apply Forall_bind; [apply test_tree_outputs; reflexivity|]. intros _.
    apply Forall_bind; [apply Forall_cout; reflexivity|]. intros _.
    apply Forall_bind; [apply test_tree_outputs; reflexivity|]. intros _.
    apply IH.
Qed.

End Traces.

(** ** The claims about the metrics *)

(** C1.  In the classification branch a row is counted exactly when the class
    found by the scan equals the true class in column 0; on a mapping of
    probabilities the scan finds the first key of maximal probability; the
    count is accumulated by [+= 1] in single precision, which is exact up to
    [2^24] rows, and is printed divided by the number of rows. *)
Theorem test_tree_recall `{basic_tree} (tree : CTree) (X : Dataset)
    (preds : list PredMap) (classes : list Z) :
  Evaluate tree X = Ok preds ->
  length preds = length X ->
  X <> [] ->
  Forall2 (fun row c => row !! 0%nat = Some (Category c)) X classes ->
  test_tree tree X =
    cout [OStr "REC: ";
          OFloat (F32.div (F32.count (hits preds classes)) (F32.of_nat (length X)));
          OEndl] /\
  (forall m c, probabilities m -> (hit m c = true <-> first_argmax m c)) /\
  ((length X <= 2 ^ 24)%nat ->
   F32.count (hits preds classes) = F32.of_nat (hits preds classes)).
Proof.
  intros Hev Hlen Hne HX. split; [|split].
  - destruct X as [|X_0 X']; [congruence|].
    pose proof HX as HX'. apply Forall2_cons_inv_l in HX' as (c0 & classes' & Hc0 & _ & ->).
    rewrite (test_tree_first tree _ preds X_0 (Category c0) Hev eq_refl Hc0).
    cbn [VALUE_dtype Z.eqb].
    rewrite (recall_loop_counts _ _ HX) by lia.
    rewrite call_ok_bind. reflexivity.
  - intros m c Hm. unfold hit. rewrite Z.eqb_eq. apply pred_class_first_argmax, Hm.
  - intros Hsize. apply F32Exact.count_exact.
    pose proof (hits_le preds classes). lia.
Qed.

(** C2.  In the regression branch the printed value is the sum, from the
    first row to the last, of |prediction at key 0 - truth| / max (1e-5, truth),
    divided by the number of rows; the denominator of a summand is never
    below the constant 1e-5 (nor a NaN). *)
Theorem test_tree_mapd `{basic_tree} (tree : CTree) (X : Dataset)
    (preds : list PredMap) (truths : list F32.t) :
  Evaluate tree X = Ok preds ->
  length preds = length X ->
  X <> [] ->
  Forall2 (fun row t => row !! 0%nat = Some (Measurement t)) X truths ->
  test_tree tree X =
    cout [OStr "MAPD: ";
          OFloat (F32.div (F32_sum (zip_with abs_pct_dev preds truths))
                          (F32.of_nat (length X)));
          OEndl] /\
  length (zip_with abs_pct_dev preds truths) = length X /\
  (forall m truth,
     abs_pct_dev m truth =
       F32.div (F32.abs (F32.sub (map_at m 0) truth)) (F32.max F32.lit_1e_5 truth) /\
     F32.leb F32.lit_1e_5 (F32.max F32.lit_1e_5 truth) = true /\
     F32.ltb (F32.max F32.lit_1e_5 truth) F32.lit_1e_5 = false) /\
  (forall m p, NoDup (fst <$> m) -> (0, p) ∈ m -> map_at m 0 = p).
Proof.
  intros Hev Hlen Hne HX. split; [|split; [|split]].
  - destruct X as [|X_0 X']; [congruence|].
    pose proof HX as HX'. apply Forall2_cons_inv_l in HX' as (t0 & truths' & Ht0 & _ & ->).
    rewrite (test_tree_first tree _ preds X_0 (Measurement t0) Hev eq_refl Ht0).
    cbn [VALUE_dtype Z.eqb].
    rewrite (mapd_loop_sums _ _ HX) by lia.
    rewrite call_ok_bind. reflexivity.
  - rewrite length_zip_with. apply Forall2_length in HX. lia.
  - intros m truth. split; [reflexivity|]. split; [apply floored_above|].
    destruct (F32.ltb (F32.max F32.lit_1e_5 truth) F32.lit_1e_5) eqn:Hlt; [|reflexivity].
    exfalso. eapply F32Facts.ltb_leb_absurd; [exact Hlt|apply floored_above].
  - intros m p. apply map_at_elem.
Qed.

(** C3.  Once the predictions are there, the branch of [test_tree] is chosen
    by the discriminant of column 0 of the first row alone: 0 runs the recall
    loop and prints nothing but a [REC] line, 1 runs the deviation loop and
    prints nothing but a [MAPD] line, and there is no other discriminant. *)
Theorem test_tree_metric_choice `{basic_tree} (tree : CTree) (X : Dataset)
    (preds : list PredMap) (X_0 : Row) (v : VALUE) :
  Evaluate tree X = Ok preds ->
  X !! 0%nat = Some X_0 ->
  X_0 !! 0%nat = Some v ->
  (VALUE_dtype v = 0 /\
   test_tree tree X =
     (recalling ← call (recall_loop X 0 preds F32.zero);
      cout [OStr "REC: "; OFloat (F32.div recalling (F32.of_nat (length X))); OEndl]) /\
   prints_only "REC: " (test_tree tree X))
  \/
  (VALUE_dtype v = 1 /\
   test_tree tree X =
     (MAPD ← call (mapd_loop X 0 preds F32.zero);
      cout [OStr "MAPD: "; OFloat (F32.div MAPD (F32.of_nat (length X))); OEndl]) /\
   prints_only "MAPD: " (test_tree tree X)).
Proof.
  intros Hev HX0 Hv. rewrite (test_tree_first tree X preds X_0 v Hev HX0 Hv).
  destruct v as [c|m]; cbn [VALUE_dtype Z.eqb]; [left|right];
    (split; [reflexivity|]); (split; [reflexivity|]).
  - apply (call_then_line _ "REC: " (fun r => F32.div r (F32.of_nat (length X)))).
  - apply (call_then_line _ "MAPD: " (fun r => F32.div r (F32.of_nat (length X)))).
Qed.

(** ** The claims about the loader *)

Section LoaderFacts.
Context `{basic_tree, lexical_cast}.

Lemma load_data_from_one_file_eq (w : World) (path : string)
    (data_config : gmap string DATA_CONFIG) :
  load_data_from_one_file w path data_config =
    ([EvOpen path], dataset_at w data_config path).
Proof.
  unfold load_data_from_one_file, dataset_at. rewrite bind_Ok.
  destruct (file w path); reflexivity.
Qed.

End LoaderFacts.




(** C8, for files whose lines fit the buffer.  For a file without NUL
    characters whose lines before the first empty line have at most 2047
    characters, the loader returns one row
    per line strictly after the first line and strictly before the first
    empty line, in order, the first line serving as the header; it fails
    where the first of these rows cannot be built. *)
Theorem loader_rows_are_lines `{basic_tree, lexical_cast} (w : World) (path : string)
    (data_config : gmap string DATA_CONFIG) (content : string) :
  file w path = Some content ->
  has_char NUL content = false ->
  Forall (fun l => (String.length l <= 2047)%nat) (until_empty (lines content)) ->
  load_data_from_one_file w path data_config =
    ([EvOpen path],
     mapM (row_of_line data_config (split_line (hd "" (lines content))))
          (tail (until_empty (lines content)))).
Proof.
  intros Hfile Hnul Hshort. rewrite load_data_from_one_file_eq. unfold dataset_at.
  rewrite Hfile. f_equal. rewrite <- (join_lines_lines content) at 1.
  apply read_all_lines.
  - apply lines_not_nil.
  - apply lines_no_newline.
  - apply lines_no_char, Hnul.
  - exact Hshort.
Qed.

(** C9.  A file that cannot be opened yields the empty dataset, as an empty
    file does, so the loader behaves the same in a world where missing files
    are replaced by empty ones; [load_data] returns 0 whenever it returns. *)
Theorem missing_file_is_empty `{basic_tree, lexical_cast} (w w' : World)
    (data_dir : string) (data_config : gmap string DATA_CONFIG) :
  (forall path, file w' path = file w path \/
                (file w path = None /\ file w' path = Some "")) ->
  (forall path, file w path = None ->
     load_data_from_one_file w path data_config = ([EvOpen path], Ok [])) /\
  (forall path,
     load_data_from_one_file w path data_config =
     load_data_from_one_file w' path data_config) /\
  load_data w data_dir data_config = load_data w' data_dir data_config /\
  (forall tr r train_data test_data,
     load_data w data_dir data_config = (tr, Ok (r, train_data, test_data)) -> r = 0).
Proof.
  intros Hw.
  assert (Hsame : forall path, load_data_from_one_file w path data_config =
                               load_data_from_one_file w' path data_config).
  { intros path. rewrite !load_data_from_one_file_eq. unfold dataset_at.
    destruct (Hw path) as [-> | [-> ->]]; reflexivity. }
  split; [|split; [exact Hsame|split]].
  - intros path Hnone. rewrite load_data_from_one_file_eq. unfold dataset_at.
    rewrite Hnone. reflexivity.
  - unfold load_data. rewrite !Hsame. reflexivity.
  - intros tr r train_data test_data. unfold load_data.
    rewrite !load_data_from_one_file_eq.
    destruct (dataset_at w data_config (data_dir +:+ "/train.csv")) as [a| |];
      [|discriminate..].
    rewrite bind_Ok.
    destruct (dataset_at w data_config (data_dir +:+ "/test.csv")) as [b| |];
      [|discriminate..].
    rewrite bind_Ok. unfold cout. rewrite bind_Ok. cbn. intros [= _ <- _ _]. reflexivity.
Qed.

(** ** The claims about the driver *)

Section DriverFacts.
Context `{basic_tree, lexical_cast}.

Lemma append_assoc (a b c : string) : (a +:+ b) +:+ c = a +:+ (b +:+ c).
Proof.
  induction a as [|x a IH]; [reflexivity|]. rewrite !append_cons, IH. reflexivity.
Qed.

Lemma main_with_root (w : World) (root : string) :
  getenv w "DATASET_ROOT_DIR" = Some root ->
  main w =
    ('(_, trainset, testset) ← load_data w (root +:+ "house_price\") (GetDataConfig ∅);
     depth_loop [3; 10; 50] initial_param trainset testset;;
     mret 0).
Proof.
  intros Hroot. unfold main. cbv zeta. rewrite Hroot. cbn [std_string].
  rewrite call_ok_bind. reflexivity.
Qed.

Lemma first_event_bind {A B : Type} (m : prog A) (f : A -> prog B) (e : event) :
  fst m !! 0%nat = Some e -> fst (m ≫= f) !! 0%nat = Some e.
Proof.
  intros Hm. rewrite bind_trace. destruct (snd m); cbn [fst]; try exact Hm.
  apply lookup_app_l_Some, Hm.
Qed.

Lemma load_data_loaded (w : World) (data_dir : string)
    (data_config : gmap string DATA_CONFIG) (train_data test_data : Dataset) :
  dataset_at w data_config (data_dir +:+ "/train.csv") = Ok train_data ->
  dataset_at w data_config (data_dir +:+ "/test.csv") = Ok test_data ->
  load_data w data_dir data_config =
    (EvOpen (data_dir +:+ "/train.csv") :: EvOpen (data_dir +:+ "/test.csv")
       :: info_line train_data test_data,
     Ok (0, train_data, test_data)).
Proof.
  intros Htrain Htest. unfold load_data. rewrite !load_data_from_one_file_eq.
  rewrite Htrain, bind_Ok, Htest, bind_Ok. unfold cout. rewrite bind_Ok. reflexivity.
Qed.

End DriverFacts.

(** C7.  With [DATASET_ROOT_DIR] set to [root], the driver opens exactly the
    two files [root ++ "house_price\" ++ "/train.csv"] and
    [root ++ "house_price\" ++ "/test.csv"], in this order, and the loop over the
    depths runs on the datasets read from them. *)
Theorem main_opens_dataset_files `{basic_tree, lexical_cast} (w : World) (root : string)
    (trainset testset : Dataset) :
  getenv w "DATASET_ROOT_DIR" = Some root ->
  dataset_at w (GetDataConfig ∅) (root +:+ "house_price\/train.csv") = Ok trainset ->
  dataset_at w (GetDataConfig ∅) (root +:+ "house_price\/test.csv") = Ok testset ->
  let runs := depth_loop [3; 10; 50] initial_param trainset testset in
  main w =
    ((EvOpen (root +:+ "house_price\/train.csv")
      :: EvOpen (root +:+ "house_price\/test.csv")
      :: info_line trainset testset ++ fst runs)%list,
     snd (runs;; mret 0)) /\
  Forall (fun e => is_open e = false) (fst runs).
Proof.
  intros Hroot Htrain Htest runs. split; [|apply depth_loop_no_open].
  rewrite (main_with_root w root Hroot).
  change "house_price\/train.csv" with ("house_price\" +:+ "/train.csv") in *.
  change "house_price\/test.csv" with ("house_price\" +:+ "/test.csv") in *.
  rewrite <- !append_assoc in *.
  rewrite (load_data_loaded w _ _ trainset testset Htrain Htest), bind_Ok.
  fold runs. rewrite (bind_trace runs).
  destruct (snd runs); cbn [fst snd mret prog_ret]; rewrite ?app_nil_r; reflexivity.
Qed.

(** C5.  When the data are loaded and the engine goes through, the driver
    makes exactly three training calls, each on a newly constructed tree, at
    the depths 3, 10 and 50 in this order, and after each of them prints the
    depth and then one metric line ([REC] or [MAPD]) for the training set and
    one for the test set. *)
Theorem main_three_runs `{basic_tree, lexical_cast} (w : World) (root : string)
    (loading : list event) (trainset testset : Dataset) (tree : Z -> CTree) :
  getenv w "DATASET_ROOT_DIR" = Some root ->
  load_data w (root +:+ "house_price\") (GetDataConfig ∅) =
    (loading, Ok (0, trainset, testset)) ->
  (forall d, d ∈ [3; 10; 50] ->
     Train CTree_new trainset (run_param d) = Ok (tree d) /\
     snd (test_tree (tree d) trainset) = Ok tt /\
     snd (test_tree (tree d) testset) = Ok tt) ->
  main w =
    ((loading
      ++ run_events 3 (tree 3) trainset testset
      ++ run_events 10 (tree 10) trainset testset
      ++ run_events 50 (tree 50) trainset testset)%list,
     Ok 0) /\
  (forall d X, d ∈ [3; 10; 50] -> X ∈ [trainset; testset] ->
     exists x, fst (test_tree (tree d) X) = metric_line "REC: " x \/
               fst (test_tree (tree d) X) = metric_line "MAPD: " x) /\
  Forall (fun e => is_train e = false) loading.
Proof.
  intros Hroot Hload Hruns.
  destruct (Hruns 3 ltac:(repeat constructor)) as (Ht3 & Ha3 & Hb3).
  destruct (Hruns 10 ltac:(repeat constructor)) as (Ht10 & Ha10 & Hb10).
  destruct (Hruns 50 ltac:(repeat constructor)) as (Ht50 & Ha50 & Hb50).
  split; [|split].
  - rewrite (main_with_root w root Hroot), Hload, bind_Ok.
    rewrite (depth_loop_cons 3 _ _ _ _ (tree 3)) by (assumption || reflexivity).
    rewrite (depth_loop_cons 10 _ _ _ _ (tree 10)) by (assumption || reflexivity).
    rewrite (depth_loop_cons 50 _ _ _ _ (tree 50)) by (assumption || reflexivity).
    cbn [depth_loop fst snd mret prog_ret]. rewrite bind_Ok. cbn [fst snd].
    rewrite !app_nil_r. reflexivity.
  - intros d X Hd HX. apply test_tree_prints.
    destruct (Hruns d Hd) as (_ & Ha & Hb).
    apply elem_of_cons in HX as [-> | HX]; [exact Ha|].
    apply list_elem_of_singleton in HX as ->. exact Hb.
  - assert (Hl : loading = fst (load_data w (root +:+ "house_price\") (GetDataConfig ∅)))
      by (rewrite Hload; reflexivity).
    rewrite Hl. unfold load_data. rewrite !load_data_from_one_file_eq.
    apply Forall_bind; [repeat constructor|]. intros a.
    apply Forall_bind; [repeat constructor|]. intros b.
    apply Forall_bind; [apply Forall_cout; reflexivity|]. intros _. constructor.
Qed.

(** C6.  Every training call of the driver is made on a newly constructed
    tree with [loss_type] "gini" and [min_std] 0.1; its [max_depth] is one of
    3, 10 and 50, the only field that changes between the calls. *)
Theorem main_fixed_params `{basic_tree, lexical_cast} (w : World) :
  Forall fixed_params (fst (main w)).
Proof.
  destruct (getenv w "DATASET_ROOT_DIR") as [root|] eqn:Hroot.
  - rewrite (main_with_root w root Hroot).
    apply Forall_bind.
    + unfold load_data. rewrite !load_data_from_one_file_eq.
      apply Forall_bind; [repeat constructor|]. intros a.
      apply Forall_bind; [repeat constructor|]. intros b.
      apply Forall_bind; [apply Forall_cout; exact (fun _ => I)|]. intros _. constructor.
    + intros [[r trainset] testset].
      apply Forall_bind; [|intros _; constructor].
      apply (depth_loop_params [3; 10; 50] initial_param trainset testset); reflexivity.
  - unfold main. rewrite Hroot. constructor.
Qed.

(** C10.  The string built from [getenv ("DATASET_ROOT_DIR")] is defined
    exactly when the variable is set; when it is not, the behaviour of the
    driver is undefined from its first step, before any event. *)
Theorem main_needs_root `{basic_tree, lexical_cast} (w : World) :
  (getenv w "DATASET_ROOT_DIR" = None -> main w = ([], Undefined)) /\
  (std_string (getenv w "DATASET_ROOT_DIR") = Undefined <->
   getenv w "DATASET_ROOT_DIR" = None) /\
  (forall root, getenv w "DATASET_ROOT_DIR" = Some root ->
     std_string (getenv w "DATASET_ROOT_DIR") = Ok root /\
     exists path, fst (main w) !! 0%nat = Some (EvOpen path)).
Proof.
  split; [|split].
  - intros Hnone. unfold main. rewrite Hnone. reflexivity.
  - destruct (getenv w "DATASET_ROOT_DIR"); cbn; split; congruence.
  - intros root Hroot. split; [rewrite Hroot; reflexivity|].
    exists ((root +:+ "house_price\") +:+ "/train.csv").
    rewrite (main_with_root w root Hroot). unfold load_data.
    rewrite !load_data_from_one_file_eq. do 2 apply first_event_bind. reflexivity.
Qed.

(** * Further properties *)

(** ** More on the column configuration *)

Section ConfigFacts.

Lemma map_insert_old (k k' : string) (v v' : DATA_CONFIG) (m : gmap string DATA_CONFIG) :
  m !! k = Some v -> map_insert k' v' m !! k = Some v.
Proof.
  intros Hk. unfold map_insert. destruct (m !! k') eqn:Hk'; [exact Hk|].
  rewrite lookup_insert_ne; [exact Hk|]. intros ->. congruence.
Qed.

Lemma map_insert_other (k k' : string) (v' : DATA_CONFIG) (m : gmap string DATA_CONFIG) :
  k' <> k -> map_insert k' v' m !! k = m !! k.
Proof.
  intros Hne. unfold map_insert. destruct (m !! k'); [reflexivity|].
  apply lookup_insert_ne, Hne.
Qed.

Lemma map_insert_new (k : string) (v : DATA_CONFIG) (m : gmap string DATA_CONFIG) :
  map_insert k v m !! k = Some (default v (m !! k)).
Proof.
  unfold map_insert. destruct (m !! k) eqn:Hk; [exact Hk|]. apply lookup_insert_eq.
Qed.

Lemma map_insert_is_Some (k k' : string) (v' : DATA_CONFIG) (m : gmap string DATA_CONFIG) :
  is_Some (m !! k) -> is_Some (map_insert k' v' m !! k).
Proof. intros [v Hv]. exists v. apply map_insert_old, Hv. Qed.

(** The configuration that the driver builds, entry by entry. *)
Lemma demo_config_lookup (head : string) (cfg : DATA_CONFIG) :
  GetDataConfig ∅ !! head = Some cfg ->
  (head, cfg) ∈
    [("SalePrice", {| dtype := "value"; pos := 0 |});
     ("YearBuilt", {| dtype := "value"; pos := 1 |});
     ("YearRemodAdd", {| dtype := "value"; pos := 2 |});
     ("Neighborhood", {| dtype := "value"; pos := 3 |});
     ("LotArea", {| dtype := "value"; pos := 4 |});
     ("LotShape", {| dtype := "class"; pos := 5 |});
     ("LotConfig", {| dtype := "class"; pos := 6 |});
     ("HouseStyle", {| dtype := "class"; pos := 7 |});
     ("GarageArea", {| dtype := "value"; pos := 8 |})].
Proof.
  intros Hcfg.
  assert (Hin : (head, cfg) ∈ map_to_list (GetDataConfig ∅))
    by (apply elem_of_map_to_list, Hcfg).
  apply list_elem_of_In in Hin. apply list_elem_of_In.
  vm_compute in Hin. vm_compute. tauto.
Qed.

Lemma demo_config_range (head : string) (cfg : DATA_CONFIG) :
  GetDataConfig ∅ !! head = Some cfg -> 0 <= pos cfg < 9.
Proof.
  intros Hcfg. apply demo_config_lookup in Hcfg.
  repeat (apply elem_of_cons in Hcfg as [[= -> ->] | Hcfg]; [cbn; lia|]).
  apply elem_of_nil in Hcfg. contradiction.
Qed.

Lemma demo_config_injective (head head' : string) (cfg cfg' : DATA_CONFIG) :
  GetDataConfig ∅ !! head = Some cfg -> GetDataConfig ∅ !! head' = Some cfg' ->
  pos cfg = pos cfg' -> head = head'.
Proof.
  intros Hcfg Hcfg'. apply demo_config_lookup in Hcfg. apply demo_config_lookup in Hcfg'.
  repeat (apply elem_of_cons in Hcfg as [[= -> ->] | Hcfg];
          [repeat (apply elem_of_cons in Hcfg' as [[= -> ->] | Hcfg'];
                   [cbn; intros; (reflexivity || discriminate)|]);
           apply elem_of_nil in Hcfg'; contradiction|]).
  apply elem_of_nil in Hcfg. contradiction.
Qed.

End ConfigFacts.

(** X1.  [GetDataConfig] inserts without overwriting: an entry already in the
    map keeps its value, a name that is not one of the nine is looked up as
    before, and each of the nine names is configured afterwards. *)
Theorem GetDataConfig_keeps (m : gmap string DATA_CONFIG) (k : string) :
  (forall v, m !! k = Some v -> GetDataConfig m !! k = Some v) /\
  (k ∉ configured_names -> GetDataConfig m !! k = m !! k) /\
  (k ∈ configured_names -> is_Some (GetDataConfig m !! k)).
Proof.
  unfold GetDataConfig. cbv zeta. split; [|split].
  - intros v Hv. repeat apply map_insert_old. exact Hv.
  - intros Hk. unfold configured_names in Hk.
    rewrite !map_insert_other; [reflexivity|..]; intros <-; apply Hk; set_solver.
  - intros Hk. unfold configured_names in Hk.
    repeat (apply elem_of_cons in Hk as [-> | Hk];
            [repeat first [ rewrite map_insert_new; eexists; reflexivity
                          | apply map_insert_is_Some ] |]).
    apply elem_of_nil in Hk. contradiction.
Qed.

(** ** More on the row builder *)

Section RowFacts.
Context `{lexical_cast}.
Variable data_config : gmap string DATA_CONFIG.
Variable col2head : list string.

Lemma fill_row_same_configured (cells : list string) :
  forall (cells' : list string) (col : nat) (data : Row),
    length cells = length cells' ->
    (forall j cell cell' head,
       cells !! j = Some cell -> cells' !! j = Some cell' ->
       col2head !! (col + j)%nat = Some head -> is_Some (data_config !! head) ->
       cell = cell') ->
    fill_row data_config col2head col cells data =
    fill_row data_config col2head col cells' data.
Proof.
  induction cells as [|cell cells IH]; intros [|cell' cells'] col data Hlen Hsame;
    try discriminate; [reflexivity|].
  cbn [fill_row]. unfold at_. destruct (col2head !! col) as [head|] eqn:Hhead; [|reflexivity].
  cbn [mbind outcome_bind].
  assert (Hrest : forall d, fill_row data_config col2head (S col) cells d =
                            fill_row data_config col2head (S col) cells' d).
  { intros d. apply IH; [injection Hlen; auto|]. intros j c c' h Hc Hc' Hh.
    apply (Hsame (S j) c c' h Hc Hc'). rewrite <- Hh. f_equal. lia. }
  destruct (data_config !! head) as [cfg|] eqn:Hcfg; [|apply Hrest].
  assert (cell = cell') as <-.
  { apply (Hsame 0%nat cell cell' head eq_refl eq_refl).
    - rewrite Nat.add_0_r. exact Hhead.
    - rewrite Hcfg. eauto. }
  destruct (parse_cell cfg cell); cbn [mbind outcome_bind]; [|reflexivity..].
  destruct (vector_set data (pos cfg) a); cbn [mbind outcome_bind]; [apply Hrest|reflexivity..].
Qed.

Lemma fill_row_needs_heads (cells : list string) :
  forall (col : nat) (data data' : Row),
    fill_row data_config col2head col cells data = Ok data' ->
    (col + length cells <= length col2head)%nat \/ cells = [].
Proof.
  induction cells as [|cell cells IH]; intros col data data' Hrow; [right; reflexivity|].
  left. apply fill_row_cons in Hrow as (head & Hhead & Hrow).
  apply lookup_lt_Some in Hhead.
  assert (Hrest : exists d, fill_row data_config col2head (S col) cells d = Ok data').
  { destruct (data_config !! head); [destruct Hrow as (? & _ & _ & ?)|]; eauto. }
  destruct Hrest as [d Hrest]. apply IH in Hrest as [Hle | ->]; cbn [length]; lia.
Qed.

Lemma parse_cell_throws (cfg : DATA_CONFIG) (cell : string) (e : exn) :
  parse_cell cfg cell = Throw e -> e = bad_lexical_cast.
Proof.
  unfold parse_cell. destruct (String.eqb (dtype cfg) "value").
  - destruct (lexical_cast_float cell); cbn; congruence.
  - destruct (lexical_cast_int cell); cbn; congruence.
Qed.

Lemma fill_row_throws (cells : list string) :
  forall (col : nat) (data : Row) (e : exn),
    fill_row data_config col2head col cells data = Throw e -> e = bad_lexical_cast.
Proof.
  induction cells as [|cell cells IH]; intros col data e; [discriminate|].
  cbn [fill_row]. unfold at_. destruct (col2head !! col) as [head|]; [|discriminate].
  cbn [mbind outcome_bind]. destruct (data_config !! head) as [cfg|]; [|apply IH].
  destruct (parse_cell cfg cell) as [val|e'|] eqn:Hval; cbn [mbind outcome_bind];
    [|intros [= <-]; eapply parse_cell_throws, Hval|discriminate].
  unfold vector_set. destruct ((0 <=? pos cfg) && (pos cfg <? Z.of_nat (length data)));
    cbn [mbind outcome_bind]; [apply IH|discriminate].
Qed.

End RowFacts.

(** X2.  Under the configuration of the driver and a header without repeated
    names, a line that has no more cells than the header has names and whose
    configured cells are accepted by their casts yields a row of nine slots,
    and every configured cell is found in its slot of that row: no slot is
    out of range and no column overwrites another. *)
Theorem demo_row_complete `{basic_tree, lexical_cast} (col2head splits : list string) :
  NoDup col2head ->
  (length splits <= length col2head)%nat ->
  (forall col cell head cfg,
     splits !! col = Some cell -> col2head !! col = Some head ->
     GetDataConfig ∅ !! head = Some cfg -> castable cfg cell) ->
  exists row,
    fill_row (GetDataConfig ∅) col2head 0 splits
      (replicate (size (GetDataConfig ∅)) VALUE_default) = Ok row /\
    length row = 9%nat /\
    (forall col cell head cfg,
       splits !! col = Some cell -> col2head !! col = Some head ->
       GetDataConfig ∅ !! head = Some cfg ->
       exists val, parse_cell cfg cell = Ok val /\ row !! Z.to_nat (pos cfg) = Some val).
Proof.
  intros Hnd Hlen Hcast.
  change (size (GetDataConfig ∅)) with 9%nat.
  destruct (fill_row_total (GetDataConfig ∅) col2head splits 0
              (replicate 9 VALUE_default) Hlen) as [row Hrow].
  { intros j cell head cfg Hj Hhead Hcfg. rewrite length_replicate.
    destruct (Hcast j cell head cfg Hj Hhead Hcfg) as [Hv Hc].
    split; [apply (demo_config_range head), Hcfg|]. split; assumption. }
  exists row. split; [exact Hrow|]. split.
  { rewrite (proj1 (fill_row_frame _ _ _ _ _ _ Hrow)). apply length_replicate. }
  intros col cell head cfg Hcell Hhead Hcfg.
  apply (fill_row_stores_at _ _ _ _ _ _ Hrow col cell head cfg Hcell Hhead Hcfg).
  intros col' head' cfg' Hcol' Hhead' Hcfg' Hpos.
  assert (head' = head) as -> by (eapply demo_config_injective; eassumption).
  pose proof (NoDup_lookup _ _ _ _ Hnd Hhead Hhead'). lia.
Qed.

(** X3.  The cell of a column whose header is not configured is never cast:
    two lines that agree on the cells of the configured columns build the
    same row, or fail in the same way. *)
Theorem fill_row_ignores_unconfigured `{lexical_cast} (data_config : gmap string DATA_CONFIG)
    (col2head cells cells' : list string) (data : Row) :
  length cells = length cells' ->
  (forall col cell cell' head,
     cells !! col = Some cell -> cells' !! col = Some cell' ->
     col2head !! col = Some head -> is_Some (data_config !! head) -> cell = cell') ->
  fill_row data_config col2head 0 cells data = fill_row data_config col2head 0 cells' data.
Proof. intros Hlen Hsame. apply fill_row_same_configured; assumption. Qed.

(** X4.  A row has as many slots as the configuration has names, and a slot
    for which the line has no configured column holds the default-constructed
    value. *)
Theorem row_of_line_defaults `{basic_tree, lexical_cast}
    (data_config : gmap string DATA_CONFIG) (col2head : list string) (line : string)
    (row : Row) :
  row_of_line data_config col2head line = Ok row ->
  length row = size data_config /\
  (forall i : nat,
     (i < size data_config)%nat ->
     (forall col head cfg,
        (col < length (split_line line))%nat -> col2head !! col = Some head ->
        data_config !! head = Some cfg -> pos cfg <> Z.of_nat i) ->
     row !! i = Some VALUE_default).
Proof.
  unfold row_of_line. intros Hrow.
  destruct (fill_row_frame _ _ _ _ _ _ Hrow) as [Hlen Hkeep].
  rewrite length_replicate in Hlen. split; [exact Hlen|].
  intros i Hi Hnone. specialize (Hkeep (Z.of_nat i) ltac:(lia)).
  rewrite Nat2Z.id in Hkeep. rewrite Hkeep.
  - apply lookup_replicate_2, Hi.
  - intros col head cfg Hcol. apply Hnone. lia.
Qed.

(** X5.  A line with more cells than the header has names never yields a
    row: either a cast throws first, or the header is indexed out of range,
    which is undefined. *)
Theorem fill_row_too_many_cells `{lexical_cast} (data_config : gmap string DATA_CONFIG)
    (col2head splits : list string) (data : Row) :
  (length col2head < length splits)%nat ->
  fill_row data_config col2head 0 splits data = Undefined \/
  fill_row data_config col2head 0 splits data = Throw bad_lexical_cast.
Proof.
  intros Hlen. destruct (fill_row data_config col2head 0 splits data) as [data'|e|] eqn:Hrow.
  - exfalso. apply fill_row_needs_heads in Hrow as [Hle | ->]; [lia|cbn in Hlen; lia].
  - right. apply fill_row_throws in Hrow as ->. reflexivity.
  - left. reflexivity.
Qed.

(** ** More on the reading loop *)

Section ReadFacts.
Context `{basic_tree, lexical_cast}.
Variable data_config : gmap string DATA_CONFIG.

(** More fuel does not change a result. *)
Lemma read_loop_more_fuel (fuel : nat) :
  forall (fuel' : nat) (fs : ifstream) (col2head : list string) (data_all : Dataset)
         (r : outcome Dataset),
    (fuel <= fuel')%nat ->
    read_loop fuel data_config fs col2head data_all = Some r ->
    read_loop fuel' data_config fs col2head data_all = Some r.
Proof.
  induction fuel as [|fuel IH]; intros fuel' fs col2head data_all r Hle; [discriminate|].
  destruct fuel' as [|fuel']; [lia|]. cbn [read_loop].
  destruct (eofbit fs); [auto|]. destruct (getline fs 2048) as [line_content fs'].
  destruct (c_str line_content); [auto|].
  destruct col2head as [|h hs]; [apply IH; lia|].
  destruct (fill_row data_config (h :: hs) 0 _ _); [apply IH; lia|auto..].
Qed.

(** The result of the loader is the result of the loop at any fuel that
    suffices. *)
Lemma read_all_at_fuel (content : string) (fuel : nat) (r : outcome Dataset) :
  read_loop fuel data_config {| rdbuf := content; eofbit := false; failbit := false |} [] []
    = Some r ->
  read_all data_config content = r.
Proof.
  intros Hr. unfold read_all. destruct (read_all_fuel data_config content) as [r0 Hr0].
  rewrite Hr0.
  apply (read_loop_more_fuel _ (Nat.max fuel (S (String.length content)))) in Hr; [|lia].
  apply (read_loop_more_fuel _ (Nat.max fuel (S (String.length content)))) in Hr0; [|lia].
  congruence.
Qed.

Lemma read_loop_throws (fuel : nat) :
  forall (fs : ifstream) (col2head : list string) (data_all : Dataset) (e : exn),
    read_loop fuel data_config fs col2head data_all = Some (Throw e) -> e = bad_lexical_cast.
Proof.
  induction fuel as [|fuel IH]; intros fs col2head data_all e; [discriminate|].
  cbn [read_loop]. destruct (eofbit fs); [discriminate|].
  destruct (getline fs 2048) as [line_content fs']. destruct (c_str line_content); [discriminate|].
  destruct col2head as [|h hs]; [apply IH|].
  destruct (fill_row data_config (h :: hs) 0 _ _) as [row|e'|] eqn:Hrow;
    [apply IH| |discriminate].
  intros [= <-]. eapply fill_row_throws, Hrow.
Qed.

Lemma read_loop_row_lengths (fuel : nat) :
  forall (fs : ifstream) (col2head : list string) (data_all data : Dataset),
    Forall (fun row => length row = size data_config) data_all ->
    read_loop fuel data_config fs col2head data_all = Some (Ok data) ->
    Forall (fun row => length row = size data_config) data.
Proof.
  induction fuel as [|fuel IH]; intros fs col2head data_all data Hall; [discriminate|].
  cbn [read_loop]. destruct (eofbit fs); [intros [= <-]; exact Hall|].
  destruct (getline fs 2048) as [line_content fs'].
  destruct (c_str line_content); [intros [= <-]; exact Hall|].
  destruct col2head as [|h hs]; [apply IH, Hall|].
  destruct (fill_row data_config (h :: hs) 0 _ _) as [row|e'|] eqn:Hrow; [|discriminate..].
  apply IH. apply Forall_app. split; [exact Hall|]. constructor; [|constructor].
  rewrite (proj1 (fill_row_frame _ _ _ _ _ _ Hrow)). apply length_replicate.
Qed.

(** Extraction of a line that does not fit the buffer. *)
Lemma getline_chars_limit (a : string) (c : ascii) (tail : string) :
  has_char newline a = false -> Ascii.eqb c newline = false ->
  getline_chars (String.length a) (a +:+ String c tail) =
    {| stored := a; rest := String c tail; hit_eof := false; hit_limit := true;
       extracted := String.length a |}.
Proof.
  intros Ha Hc. induction a as [|x a IH]; rewrite ?append_nil, ?append_cons;
    cbn [has_char String.length getline_chars] in *.
  - rewrite Hc. reflexivity.
  - apply orb_false_iff in Ha as [Hx Ha]. rewrite Hx, IH by exact Ha. reflexivity.
Qed.

(** A line that fits, not the last of the stream, with the header known. *)
Lemma read_loop_line (fuel : nat) (l : string) (ls : list string)
    (col2head : list string) (data_all : Dataset) :
  col2head <> [] -> l <> "" ->
  has_char newline l = false -> has_char NUL l = false -> (String.length l <= 2047)%nat ->
  read_loop (S fuel) data_config (stream_of (l :: ls)) col2head data_all =
    match row_of_line data_config col2head l with
    | Ok row => read_loop fuel data_config (stream_of ls) col2head (data_all ++ [row])%list
    | Throw e => Some (Throw e)
    | Undefined => Some Undefined
    end.
Proof.
  intros Hhead Hne Hnl Hnul Hshort. cbn [read_loop].
  replace (eofbit (stream_of (l :: ls))) with false by (destruct ls; reflexivity).
  destruct (getline_stream_of l ls Hnl Hshort) as [Hfst Hsnd]. specialize (Hsnd Hne).
  destruct (getline (stream_of (l :: ls)) 2048) as [line_content fs'].
  cbn [fst snd] in Hfst, Hsnd. subst line_content fs'. rewrite (c_str_no_NUL _ Hnul).
  destruct l as [|c l]; [congruence|]. destruct col2head as [|h hs]; [congruence|].
  reflexivity.
Qed.

(** A line that does not fit: its first 2047 characters make the last row. *)
Lemma read_loop_long_line (fuel : nat) (a : string) (c : ascii) (tail : string)
    (col2head : list string) (data_all : Dataset) :
  col2head <> [] ->
  String.length a = 2047%nat -> has_char newline a = false -> has_char NUL a = false ->
  Ascii.eqb c newline = false ->
  read_loop (S (S fuel)) data_config (stream_of [a +:+ String c tail]) col2head data_all =
    Some (row ← row_of_line data_config col2head a; Ok (data_all ++ [row])%list).
Proof.
  intros Hhead Hlen Hnl Hnul Hc. cbn [read_loop stream_of eofbit join_lines].
  unfold getline at 1. cbn [eofbit failbit rdbuf orb]. change (2048 - 1)%nat with 2047%nat.
  rewrite <- Hlen, (getline_chars_limit a c tail Hnl Hc).
  cbn [stored rest hit_eof hit_limit extracted orb]. rewrite (c_str_no_NUL _ Hnul).
  destruct a as [|x a]; [discriminate Hlen|]. destruct col2head as [|h hs]; [congruence|].
  fold (row_of_line data_config (h :: hs) (String x a)).
  destruct (row_of_line data_config (h :: hs) (String x a)); reflexivity.
Qed.

Lemma read_loop_until_long (pre : list string) :
  forall (fuel : nat) (a : string) (c : ascii) (tail : string) (col2head : list string)
         (data_all : Dataset),
    col2head <> [] ->
    Forall (fun l => l <> "" /\ has_char newline l = false /\ has_char NUL l = false /\
                     (String.length l <= 2047)%nat) pre ->
    String.length a = 2047%nat -> has_char newline a = false -> has_char NUL a = false ->
    Ascii.eqb c newline = false ->
    read_loop (length pre + S (S fuel)) data_config
        (stream_of (pre ++ [a +:+ String c tail])) col2head data_all =
      Some (rows ← mapM (row_of_line data_config col2head) (pre ++ [a]);
            Ok (data_all ++ rows)%list).
Proof.
  induction pre as [|l pre IH]; intros fuel a c tail col2head data_all Hhead Hpre Hlen Hnl Hnul Hc.
  - cbn [app length Nat.add]. rewrite read_loop_long_line by assumption.
    cbn [mapM]. destruct (row_of_line data_config col2head a); reflexivity.
  - apply Forall_cons in Hpre as [(Hne & Hl1 & Hl2 & Hl3) Hpre].
    cbn [app length Nat.add]. rewrite read_loop_line by assumption.
    destruct (row_of_line data_config col2head l) as [row| |] eqn:Hrow.
    + rewrite IH by assumption. rewrite (mapM_cons_Ok _ _ _ _ Hrow).
      destruct (mapM (row_of_line data_config col2head) (pre ++ [a])) as [rows| |];
        cbn; [|reflexivity..]. rewrite <- app_assoc. reflexivity.
    + cbn [mapM]. rewrite Hrow. reflexivity.
    + cbn [mapM]. rewrite Hrow. reflexivity.
Qed.

End ReadFacts.

Lemma loader_throws `{basic_tree, lexical_cast} (w : World) (path : string)
    (data_config : gmap string DATA_CONFIG) (e : exn) :
  dataset_at w data_config path = Throw e -> e = bad_lexical_cast.
Proof.
  unfold dataset_at. destruct (file w path) as [content|]; [|discriminate].
  unfold read_all. destruct (read_all_fuel data_config content) as [r Hr]. rewrite Hr.
  intros ->. eapply read_loop_throws, Hr.
Qed.

(** X6.  The only exception the loader raises is [bad_lexical_cast], from a
    configured cell that its cast rejects (allocation failure is not
    modelled). *)
Theorem loader_only_bad_cast `{basic_tree, lexical_cast} (w : World) (path : string)
    (data_config : gmap string DATA_CONFIG) (e : exn) :
  snd (load_data_from_one_file w path data_config) = Throw e -> e = bad_lexical_cast.
Proof. rewrite load_data_from_one_file_eq. cbn [snd]. apply loader_throws. Qed.

(** X7.  Every row of a loaded dataset has as many slots as the
    configuration has names, whatever the file holds. *)
Theorem loader_row_lengths `{basic_tree, lexical_cast} (w : World) (path : string)
    (data_config : gmap string DATA_CONFIG) (data : Dataset) :
  snd (load_data_from_one_file w path data_config) = Ok data ->
  Forall (fun row => length row = size data_config) data.
Proof.
  rewrite load_data_from_one_file_eq. cbn [snd]. unfold dataset_at.
  destruct (file w path) as [content|]; [|intros [= <-]; constructor].
  unfold read_all. destruct (read_all_fuel data_config content) as [r Hr]. rewrite Hr.
  intros ->. eapply read_loop_row_lengths; [|exact Hr]. constructor.
Qed.

(** X8.  A line of 2048 or more characters ends the reading: when the header
    and the lines before it are non-empty, at most 2047 characters long and
    free of NUL characters, and the first 2047 characters of the long line
    are free of NUL characters too, the dataset is one row per line before
    it, then one row built from its first 2047 characters, and nothing of
    what follows. *)
Theorem long_line_ends_reading `{basic_tree, lexical_cast}
    (data_config : gmap string DATA_CONFIG) (header : string) (pre : list string)
    (a : string) (c : ascii) (tail : string) :
  Forall (fun l => l <> "" /\ has_char newline l = false /\ has_char NUL l = false /\
                   (String.length l <= 2047)%nat) (header :: pre) ->
  String.length a = 2047%nat -> has_char newline a = false -> has_char NUL a = false ->
  Ascii.eqb c newline = false ->
  read_all data_config (join_lines (header :: pre ++ [a +:+ String c tail])) =
    mapM (row_of_line data_config (split_line header)) (pre ++ [a]).
Proof.
  intros Hlines Hlen Hnl Hnul Hc.
  apply Forall_cons in Hlines as [(Hne & Hh1 & Hh2 & Hh3) Hpre].
  apply (read_all_at_fuel _ _ (S (length pre + S (S 0)))).
  change {| rdbuf := join_lines (header :: pre ++ [a +:+ String c tail]);
            eofbit := false; failbit := false |}
    with (stream_of (header :: pre ++ [a +:+ String c tail])).
  cbn [read_loop].
  replace (eofbit (stream_of (header :: pre ++ [a +:+ String c tail]))) with false
    by (destruct pre; reflexivity).
  destruct (getline_stream_of header (pre ++ [a +:+ String c tail]) Hh1 Hh3) as [Hfst Hsnd].
  specialize (Hsnd Hne).
  destruct (getline (stream_of (header :: pre ++ [a +:+ String c tail])) 2048)
    as [line_content fs'].
  cbn [fst snd] in Hfst, Hsnd. subst line_content fs'. rewrite (c_str_no_NUL _ Hh2).
  destruct header as [|x header]; [congruence|]. cbn [app].
  rewrite read_loop_until_long; try assumption; [|apply split_line_not_nil].
  destruct (mapM _ (pre ++ [a])); reflexivity.
Qed.

(** ** More on splitting a line *)

Section SplitFacts.

Lemma is_any_of_comma (c : ascii) : is_any_of "," c = Ascii.eqb c comma.
Proof. unfold is_any_of. cbn. apply orb_false_r. Qed.

Lemma blank_not_comma (c : ascii) : is_any_of blanks c = true -> is_any_of "," c = false.
Proof.
  rewrite is_any_of_comma. unfold is_any_of, blanks. cbn [list_ascii_of_string existsb].
  intros Hc. destruct (Ascii.eqb_spec c comma) as [-> | _]; [|reflexivity].
  vm_compute in Hc. discriminate.
Qed.

(** No token holds a separator. *)
Lemma split_compress_no_sep (pred : ascii -> bool) (c : ascii) (s : string) :
  pred c = true ->
  forall in_run : bool, Forall (fun tok => has_char c tok = false) (split_compress pred in_run s).
Proof.
  intros Hc. induction s as [|x s IH]; intros in_run; cbn [split_compress].
  - repeat constructor.
  - destruct (pred x) eqn:Hx.
    + destruct in_run; [apply IH|]. constructor; [reflexivity|apply IH].
    + specialize (IH false). destruct (split_compress pred false s) as [|tok toks].
      * repeat constructor. cbn [has_char]. destruct (Ascii.eqb_spec x c) as [-> | _]; [congruence|].
        reflexivity.
      * apply Forall_cons in IH as [Htok Htoks]. constructor; [|exact Htoks].
        cbn [has_char]. rewrite Htok. destruct (Ascii.eqb_spec x c) as [-> | _]; [congruence|].
        reflexivity.
Qed.

(** A run of separators splits like a single one. *)
Lemma split_compress_run (pred : ascii -> bool) (c c' : ascii) (s1 s2 : string) :
  pred c = true -> pred c' = true ->
  forall in_run : bool,
    split_compress pred in_run (s1 +:+ String c (String c' s2)) =
    split_compress pred in_run (s1 +:+ String c s2).
Proof.
  intros Hc Hc'. induction s1 as [|x s1 IH]; intros in_run;
    rewrite ?append_nil, ?append_cons; cbn [split_compress].
  - rewrite Hc, Hc'. destruct in_run; reflexivity.
  - rewrite !IH. reflexivity.
Qed.

Lemma split_compress_whole (pred : ascii -> bool) (s : string) :
  (forall c, has_char c s = true -> pred c = false) ->
  split_compress pred false s = [s].
Proof.
  induction s as [|x s IH]; intros Hs; cbn [split_compress]; [reflexivity|].
  rewrite (Hs x) by (cbn [has_char]; rewrite Ascii.eqb_refl; reflexivity).
  rewrite IH; [reflexivity|]. intros c Hc. apply Hs. cbn [has_char]. rewrite Hc.
  apply orb_true_r.
Qed.

Lemma trim_left_has_char (pred : ascii -> bool) (c : ascii) (s : string) :
  has_char c s = false -> has_char c (trim_left_if pred s) = false.
Proof.
  induction s as [|x s IH]; cbn [trim_left_if has_char]; [reflexivity|].
  intros Hs. destruct (pred x); [|exact Hs]. apply orb_false_iff in Hs as [_ Hs]. auto.
Qed.

Lemma trim_right_has_char (pred : ascii -> bool) (c : ascii) (s : string) :
  has_char c s = false -> has_char c (trim_right_if pred s) = false.
Proof.
  induction s as [|x s IH]; cbn [trim_right_if has_char]; [reflexivity|].
  intros Hs. apply orb_false_iff in Hs as [Hx Hs]. specialize (IH Hs).
  destruct (trim_right_if pred s) as [|y t].
  - destruct (pred x); [reflexivity|]. cbn [has_char]. rewrite Hx. reflexivity.
  - cbn [has_char] in *. rewrite Hx. exact IH.
Qed.

Lemma trim_left_starts (s : string) :
  starts_blank (trim_left_if (is_any_of blanks) s) = false.
Proof.
  induction s as [|x s IH]; cbn [trim_left_if]; [reflexivity|].
  destruct (is_any_of blanks x) eqn:Hx; [exact IH|]. cbn [starts_blank]. exact Hx.
Qed.

Lemma trim_right_ends (s : string) :
  ends_blank (trim_right_if (is_any_of blanks) s) = false.
Proof.
  induction s as [|x s IH]; cbn [trim_right_if]; [reflexivity|].
  destruct (trim_right_if (is_any_of blanks) s) as [|y t].
  - destruct (is_any_of blanks x) eqn:Hx; [reflexivity|]. cbn [ends_blank]. exact Hx.
  - exact IH.
Qed.

Lemma trim_left_ends (s : string) :
  ends_blank s = false -> ends_blank (trim_left_if (is_any_of blanks) s) = false.
Proof.
  induction s as [|x s IH]; cbn [trim_left_if]; [reflexivity|].
  intros Hs. destruct (is_any_of blanks x) eqn:Hx; [|exact Hs].
  apply IH. destruct s; [reflexivity|exact Hs].
Qed.

Lemma trim_right_all_blank (s : string) :
  all_blank s = true -> trim_right_if (is_any_of blanks) s = "".
Proof.
  induction s as [|x s IH]; cbn [all_blank trim_right_if]; [reflexivity|].
  intros Hs. apply andb_true_iff in Hs as [Hx Hs]. rewrite (IH Hs), Hx. reflexivity.
Qed.

Lemma all_blank_no_comma (s : string) (c : ascii) :
  all_blank s = true -> has_char c s = true -> is_any_of "," c = false.
Proof.
  induction s as [|x s IH]; cbn [all_blank has_char]; [discriminate|].
  intros Hs Hc. apply andb_true_iff in Hs as [Hx Hs].
  apply orb_true_iff in Hc as [Hc | Hc]; [|auto].
  apply Ascii.eqb_eq in Hc as <-. apply blank_not_comma, Hx.
Qed.

Lemma split_line_blank (line : string) : all_blank line = true -> split_line line = [""].
Proof.
  intros Hline. unfold split_line, boost_split.
  rewrite split_compress_whole by (intros c; apply all_blank_no_comma, Hline).
  cbn [fmap list_fmap]. unfold trim_if. rewrite (trim_right_all_blank _ Hline). reflexivity.
Qed.

End SplitFacts.

(** X9.  No cell of a split line holds a comma, and none begins or ends with
    one of the blanks CR, LF, TAB and space. *)
Theorem split_line_cells (line cell : string) :
  cell ∈ split_line line ->
  has_char comma cell = false /\ starts_blank cell = false /\ ends_blank cell = false.
Proof.
  unfold split_line, boost_split. intros Hcell.
  apply list_elem_of_fmap in Hcell as (tok & -> & Htok).
  pose proof (split_compress_no_sep (is_any_of ",") comma line
                ltac:(rewrite is_any_of_comma; apply Ascii.eqb_refl) false) as Hsep.
  rewrite Forall_forall in Hsep. specialize (Hsep tok Htok). unfold trim_if.
  split; [|split].
  - apply trim_left_has_char, trim_right_has_char, Hsep.
  - apply trim_left_starts.
  - apply trim_left_ends, trim_right_ends.
Qed.

(** X10.  Adjacent commas are merged: an empty cell between two commas
    disappears, so the cells after it move one column to the left. *)
Theorem split_line_merges_commas (before after : string) :
  split_line (before +:+ ",," +:+ after) = split_line (before +:+ "," +:+ after).
Proof.
  unfold split_line, boost_split. f_equal.
  apply (split_compress_run (is_any_of ",") comma comma before after); reflexivity.
Qed.

(** X11.  A line of blanks only is not an empty line: it is split into one
    empty cell, and when the first name of the header is not configured it
    yields a row of default values. *)
Theorem blank_line_row `{basic_tree, lexical_cast} (data_config : gmap string DATA_CONFIG)
    (head : string) (heads : list string) (line : string) :
  line <> "" -> all_blank line = true -> data_config !! head = None ->
  c_str line <> "" /\
  split_line line = [""] /\
  row_of_line data_config (head :: heads) line =
    Ok (replicate (size data_config) VALUE_default).
Proof.
  intros Hne Hblank Hhead. split; [|split].
  - destruct line as [|c line]; [congruence|]. cbn [all_blank] in Hblank.
    apply andb_true_iff in Hblank as [Hc _]. cbn [c_str].
    destruct (Ascii.eqb_spec c NUL) as [-> | _]; [vm_compute in Hc|]; discriminate.
  - apply split_line_blank, Hblank.
  - unfold row_of_line. rewrite (split_line_blank _ Hblank). cbn [fill_row at_ lookup].
    cbn. rewrite Hhead. reflexivity.
Qed.

(** ** More on the arg-max scan *)

Section ScanFacts.

Lemma ltb_trans (x y z : F32.t) :
  F32.ltb x y = true -> F32.ltb y z = true -> F32.ltb x z = true.
Proof. intros Hxy Hyz. eapply F32Facts.leb_ltb_trans; [apply F32Facts.ltb_leb, Hxy|exact Hyz]. Qed.

Lemma argmax_step_skip (st e : Z * F32.t) :
  scan_state st -> above_start e = false -> argmax_step st e = st.
Proof.
  intros Hst He. destruct st as [pc pp]. unfold argmax_step.
  destruct (F32.ltb pp (snd e)) eqn:Hlt; [|reflexivity]. exfalso.
  destruct Hst as [[= -> ->] | Hst]; unfold above_start in *; cbn [snd] in *.
  - congruence.
  - rewrite (ltb_trans _ _ _ Hst Hlt) in He. discriminate.
Qed.

Lemma argmax_step_state (st e : Z * F32.t) :
  scan_state st -> above_start e = true -> scan_state (argmax_step st e).
Proof.
  intros Hst He. destruct st as [pc pp]. unfold argmax_step.
  destruct (F32.ltb pp (snd e)) eqn:Hlt.
  - right. destruct e. exact He.
  - destruct Hst as [[= -> ->] | Hst]; [|right; exact Hst].
    unfold above_start in He. congruence.
Qed.

Lemma fold_eligible (m : PredMap) :
  forall st, scan_state st ->
    fold_left argmax_step m st = fold_left argmax_step (eligible m) st.
Proof.
  induction m as [|e m IH]; intros st Hst; [reflexivity|]. cbn [fold_left eligible].
  destruct (above_start e) eqn:He.
  - cbn [fold_left]. apply IH, argmax_step_state; assumption.
  - rewrite argmax_step_skip by assumption. apply IH, Hst.
Qed.

Lemma eligible_probabilities (m : PredMap) :
  Forall (fun e => F32.ltb F32.minus_one (snd e) = true) (eligible m).
Proof.
  induction m as [|e m IH]; cbn [eligible]; [constructor|].
  destruct (above_start e) eqn:He; [constructor; assumption|exact IH].
Qed.

Lemma fold_member (m : PredMap) :
  forall st, fold_left argmax_step m st = st \/ fold_left argmax_step m st ∈ m.
Proof.
  induction m as [|e m IH]; intros st; [left; reflexivity|]. cbn [fold_left].
  destruct (IH (argmax_step st e)) as [-> | Hin]; [|right; right; exact Hin].
  destruct st as [pc pp]. unfold argmax_step. destruct (F32.ltb pp (snd e)).
  - right. destruct e. left.
  - left. reflexivity.
Qed.

End ScanFacts.

(** X12.  The class found by the scan is the initial [-1] or a key of the
    mapping, and it is the initial [-1] when no probability exceeds [-1]:
    on an empty mapping, or one of NaNs. *)
Theorem pred_class_range (m : PredMap) :
  (pred_class m = -1 \/ pred_class m ∈ fst <$> m) /\
  (eligible m = [] -> pred_class m = -1).
Proof.
  unfold pred_class, argmax_scan. split.
  - destruct (fold_member m (-1, F32.minus_one)) as [-> | Hin]; [left; reflexivity|].
    right. apply list_elem_of_fmap. eauto.
  - intros Hnone. rewrite fold_eligible by (left; reflexivity). rewrite Hnone. reflexivity.
Qed.

(** X13.  The scan skips the entries whose probability is a NaN or does not
    exceed [-1]: when some entry remains, the class found is the first key of
    maximal probability among those that remain. *)
Theorem pred_class_skips (m : PredMap) :
  pred_class m = pred_class (eligible m) /\
  (eligible m <> [] -> first_argmax (eligible m) (pred_class m)).
Proof.
  assert (Hsame : pred_class m = pred_class (eligible m)).
  { unfold pred_class, argmax_scan. rewrite fold_eligible by (left; reflexivity). reflexivity. }
  split; [exact Hsame|]. intros Hne. rewrite Hsame.
  apply pred_class_first_argmax; [|reflexivity].
  split; [exact Hne|apply eligible_probabilities].
Qed.

(** ** More on the metrics *)

Section MetricFacts.
Context `{basic_tree}.

Lemma map_at_missing (m : PredMap) (key : Z) : key ∉ fst <$> m -> map_at m key = F32.zero.
Proof.
  induction m as [|[c p] m IH]; intros Hkey; [reflexivity|]. cbn [map_at].
  rewrite fmap_cons in Hkey. apply not_elem_of_cons in Hkey as [Hne Hkey].
  destruct (Z.eqb_spec c key) as [-> | _]; [cbn in Hne; congruence|]. apply IH, Hkey.
Qed.

Lemma abs_sub_zero (x : F32.t) : F32.abs (F32.sub F32.zero x) = F32.abs x.
Proof. destruct x as [[|]|[|]| |[|] m e]; reflexivity. Qed.

Lemma recall_loop_overrun (X : Dataset) (classes : list Z) :
  Forall2 (fun row c => row !! 0%nat = Some (Category c)) X classes ->
  forall (preds : list PredMap) (k : nat) (acc : F32.t),
    (k <= length X < k + length preds)%nat ->
    recall_loop X k preds acc = Undefined.
Proof.
  intros HX preds. induction preds as [|m preds IH]; intros k acc Hlen; [cbn in Hlen; lia|].
  cbn [recall_loop length] in *. destruct (X !! k) as [row|] eqn:Hrow.
  - destruct (Forall2_lookup_l _ _ _ _ _ HX Hrow) as (c & Hc & Hcat).
    apply lookup_lt_Some in Hrow as Hk.
    rewrite (at_lookup _ _ _ Hrow). cbn [mbind outcome_bind].
    rewrite (at_lookup _ _ _ Hcat). cbn [mbind outcome_bind VALUE_i].
    apply IH. lia.
  - unfold at_. rewrite Hrow. reflexivity.
Qed.

Lemma mapd_loop_overrun (X : Dataset) (truths : list F32.t) :
  Forall2 (fun row t => row !! 0%nat = Some (Measurement t)) X truths ->
  forall (preds : list PredMap) (k : nat) (acc : F32.t),
    (k <= length X < k + length preds)%nat ->
    mapd_loop X k preds acc = Undefined.
Proof.
  intros HX preds. induction preds as [|m preds IH]; intros k acc Hlen; [cbn in Hlen; lia|].
  cbn [mapd_loop length] in *. destruct (X !! k) as [row|] eqn:Hrow.
  - destruct (Forall2_lookup_l _ _ _ _ _ HX Hrow) as (t & Ht & Hmeas).
    apply lookup_lt_Some in Hrow as Hk.
    rewrite (at_lookup _ _ _ Hrow). cbn [mbind outcome_bind].
    rewrite (at_lookup _ _ _ Hmeas). cbn [mbind outcome_bind VALUE_f].
    apply IH. lia.
  - unfold at_. rewrite Hrow. reflexivity.
Qed.

(** [test_tree] prints nothing when it fails. *)
Lemma test_tree_silent (tree : CTree) (X : Dataset) :
  snd (test_tree tree X) <> Ok tt -> fst (test_tree tree X) = [].
Proof.
  unfold test_tree.
  destruct (Evaluate tree X) as [preds| |]; [|reflexivity..]. rewrite call_ok_bind.
  destruct (at_ X 0) as [X_0| |]; [|reflexivity..]. rewrite call_ok_bind.
  destruct (at_ X_0 0) as [v| |]; [|reflexivity..]. rewrite call_ok_bind.
  destruct v; cbn [VALUE_dtype Z.eqb].
  - destruct (recall_loop X 0 preds F32.zero) as [x| |]; [|reflexivity..].
    rewrite call_ok_bind. cbn. congruence.
  - destruct (mapd_loop X 0 preds F32.zero) as [x| |]; [|reflexivity..].
    rewrite call_ok_bind. cbn. congruence.
Qed.

Lemma test_tree_needs_rows (tree : CTree) (X : Dataset) :
  snd (test_tree tree X) = Ok tt -> X <> [].
Proof.
  intros Hok ->. unfold test_tree in Hok.
  destruct (Evaluate tree []) as [preds| |]; [|discriminate..].
  rewrite call_ok_bind in Hok. discriminate.
Qed.

End MetricFacts.

(** X14.  [test_tree] prints all or nothing: one [REC] or [MAPD] line when it
    returns, and no output at all when it throws or its behaviour is
    undefined. *)
Theorem test_tree_all_or_nothing `{basic_tree} (tree : CTree) (X : Dataset) :
  (snd (test_tree tree X) = Ok tt /\
   exists x, fst (test_tree tree X) = metric_line "REC: " x \/
             fst (test_tree tree X) = metric_line "MAPD: " x) \/
  (snd (test_tree tree X) <> Ok tt /\ fst (test_tree tree X) = []).
Proof.
  destruct (snd (test_tree tree X)) as [[]| |] eqn:Hr.
  - left. split; [reflexivity|]. apply test_tree_prints, Hr.
  - right. split; [discriminate|]. apply test_tree_silent. rewrite Hr. discriminate.
  - right. split; [discriminate|]. apply test_tree_silent. rewrite Hr. discriminate.
Qed.

(** X15.  When the engine returns more predictions than there are rows, the
    loop of either metric indexes the dataset out of range: the behaviour is
    undefined and nothing is printed. *)
Theorem test_tree_too_many_predictions `{basic_tree} (tree : CTree) (X : Dataset)
    (preds : list PredMap) :
  Evaluate tree X = Ok preds ->
  (length X < length preds)%nat ->
  X <> [] ->
  (exists classes, Forall2 (fun row c => row !! 0%nat = Some (Category c)) X classes) \/
  (exists truths, Forall2 (fun row t => row !! 0%nat = Some (Measurement t)) X truths) ->
  test_tree tree X = ([], Undefined).
Proof.
  intros Hev Hlen Hne Hrows. destruct X as [|X_0 X']; [congruence|].
  destruct Hrows as [[classes HX] | [truths HX]]; pose proof HX as HX';
    apply Forall2_cons_inv_l in HX' as (v0 & vs & Hv0 & _ & ->).
  - rewrite (test_tree_first tree _ preds X_0 (Category v0) Hev eq_refl Hv0).
    cbn [VALUE_dtype Z.eqb]. rewrite (recall_loop_overrun _ _ HX) by lia. reflexivity.
  - rewrite (test_tree_first tree _ preds X_0 (Measurement v0) Hev eq_refl Hv0).
    cbn [VALUE_dtype Z.eqb]. rewrite (mapd_loop_overrun _ _ HX) by lia. reflexivity.
Qed.

(** X16.  A prediction without the key 0 counts as the prediction 0: its
    summand in the regression metric is |truth| / max (1e-5, truth). *)
Theorem deviation_missing_key (m : PredMap) (truth : F32.t) :
  0 ∉ fst <$> m ->
  map_at m 0 = F32.zero /\
  deviation (map_at m 0) truth = F32.div (F32.abs truth) (F32.max F32.lit_1e_5 truth).
Proof.
  intros Hkey. split; [apply map_at_missing, Hkey|].
  unfold deviation. rewrite (map_at_missing _ _ Hkey), abs_sub_zero. reflexivity.
Qed.

(** ** More on the driver *)

Section DriverOrder.
Context `{basic_tree, lexical_cast}.

Lemma train_depths_app (tr tr' : list event) :
  train_depths (tr ++ tr') = (train_depths tr ++ train_depths tr')%list.
Proof.
  induction tr as [|[| |tree X param] tr IH]; cbn [app train_depths]; [reflexivity|assumption..|].
  rewrite IH. reflexivity.
Qed.

Lemma train_depths_none (tr : list event) :
  Forall (fun e => is_train e = false) tr -> train_depths tr = [].
Proof.
  induction 1 as [|[| |tree X param] tr He Htr IH]; cbn [train_depths]; try assumption;
    [reflexivity|discriminate He].
Qed.

Lemma test_tree_no_train (tree : CTree) (X : Dataset) : train_depths (fst (test_tree tree X)) = [].
Proof. apply train_depths_none, test_tree_outputs. reflexivity. Qed.

Lemma load_data_no_train (w : World) (data_dir : string) (data_config : gmap string DATA_CONFIG) :
  train_depths (fst (load_data w data_dir data_config)) = [].
Proof.
  apply train_depths_none. unfold load_data. rewrite !load_data_from_one_file_eq.
  apply Forall_bind; [repeat constructor|]. intros a.
  apply Forall_bind; [repeat constructor|]. intros b.
  apply Forall_bind; [apply Forall_cout; reflexivity|]. intros _. constructor.
Qed.

(** A bind that returns went through both of its parts. *)
Lemma bind_returns {A B : Type} (m : prog A) (f : A -> prog B) (b : B) :
  snd (m ≫= f) = Ok b -> exists a, snd m = Ok a /\ snd (f a) = Ok b.
Proof.
  rewrite bind_trace. destruct (snd m) as [a| |]; cbn [snd]; [eauto|discriminate..].
Qed.

Lemma train_depths_bind {A B : Type} (m : prog A) (f : A -> prog B) :
  train_depths (fst (m ≫= f)) =
    (train_depths (fst m) ++
     match snd m with Ok a => train_depths (fst (f a)) | _ => [] end)%list.
Proof.
  rewrite bind_trace. destruct (snd m); cbn [fst]; rewrite ?train_depths_app, ?app_nil_r;
    reflexivity.
Qed.

(** The tail of one iteration of the loop, after the training call. *)
Lemma depth_loop_depths (depths : list Z) :
  forall (param : CTrainParam) (trainset testset : Dataset),
    train_depths (fst (depth_loop depths param trainset testset)) `prefix_of` depths /\
    (snd (depth_loop depths param trainset testset) = Ok tt ->
     train_depths (fst (depth_loop depths param trainset testset)) = depths /\
     (depths <> [] -> trainset <> [] /\ testset <> [])).
Proof.
  induction depths as [|d depths IH]; intros param trainset testset.
  - split; [reflexivity|]. intros _. split; [reflexivity|congruence].
  - cbn [depth_loop]. unfold train.
    destruct (Train CTree_new trainset (set_max_depth param d)) as [tree| |] eqn:Htrain.
    2,3: cbn; split; [apply prefix_cons, prefix_nil|discriminate].
    rewrite bind_Ok. cbn [fst snd app train_depths max_depth set_max_depth].
    set (rest := depth_loop depths (set_max_depth param d) trainset testset).
    set (body := cout [OStr "max depth:"; OInt d; OEndl];;
                 cout [OStr "-------evaluate trainset----------"; OEndl];;
                 test_tree tree trainset;;
                 cout [OStr "-------evaluate testset----------"; OEndl];;
                 test_tree tree testset;; rest).
    assert (Hpre : train_depths (fst body) `prefix_of` train_depths (fst rest)).
    { unfold body. rewrite !train_depths_bind. cbn [cout fst snd].
      rewrite !test_tree_no_train. cbn [fmap list_fmap train_depths app].
      destruct (snd (test_tree tree trainset)); [|apply prefix_nil..].
      destruct (snd (test_tree tree testset)); [reflexivity|apply prefix_nil..]. }
    assert (Hret : snd body = Ok tt ->
                   train_depths (fst body) = train_depths (fst rest) /\
                   snd rest = Ok tt /\ trainset <> [] /\ testset <> []).
    { intros Hr. unfold body in Hr |- *.
      apply bind_returns in Hr as (_ & _ & Hr). apply bind_returns in Hr as (_ & _ & Hr).
      apply bind_returns in Hr as ([] & Ha & Hr). apply bind_returns in Hr as (_ & _ & Hr).
      apply bind_returns in Hr as ([] & Hb & Hr).
      rewrite !train_depths_bind. cbn [cout fst snd].
      rewrite !test_tree_no_train, Ha, Hb. cbn [fmap list_fmap train_depths app].
      split; [reflexivity|]. split; [exact Hr|].
      split; eapply test_tree_needs_rows; eassumption. }
    destruct (IH (set_max_depth param d) trainset testset) as [IHpre IHret].
    fold rest in IHpre, IHret. split.
    + apply prefix_cons. etransitivity; [exact Hpre|exact IHpre].
    + intros Hr. destruct (Hret Hr) as (Heq & Hrest & Hne1 & Hne2).
      rewrite Heq. destruct (IHret Hrest) as [-> _]. split; [reflexivity|]. auto.
Qed.

End DriverOrder.

(** X17.  In every world and with every engine the depths of the training
    calls of the driver, in order, are an initial part of 3, 10, 50: a run
    never starts after a failed one; the driver returns only 0, and then all
    three calls were made. *)
Theorem main_trains_in_order `{basic_tree, lexical_cast} (w : World) :
  train_depths (fst (main w)) `prefix_of` [3; 10; 50] /\
  (forall r, snd (main w) = Ok r -> r = 0 /\ train_depths (fst (main w)) = [3; 10; 50]).
Proof.
  destruct (getenv w "DATASET_ROOT_DIR") as [root|] eqn:Hroot.
  - rewrite (main_with_root w root Hroot). rewrite train_depths_bind, load_data_no_train.
    cbn [app]. split.
    + destruct (snd (load_data _ _ _)) as [[[r0 trainset] testset]| |]; [|apply prefix_nil..].
      rewrite train_depths_bind.
      destruct (depth_loop_depths [3; 10; 50] initial_param trainset testset) as [Hpre _].
      destruct (snd (depth_loop _ _ _ _)); cbn [mret prog_ret fst train_depths];
        rewrite app_nil_r; exact Hpre.
    + intros r Hr. apply bind_returns in Hr as ([[r0 trainset] testset] & Hload & Hr).
      rewrite Hload. apply bind_returns in Hr as ([] & Hloop & Hr).
      cbn in Hr. injection Hr as <-. split; [reflexivity|].
      rewrite train_depths_bind, Hloop. cbn [mret prog_ret fst train_depths].
      rewrite app_nil_r. apply (depth_loop_depths [3; 10; 50]), Hloop.
  - unfold main. rewrite Hroot. split; [apply prefix_nil|]. discriminate.
Qed.

(** X18.  The driver returns only when both files gave at least one row: the
    metric reads [X[0][0]], so an empty or missing file ends the driver by an
    exception of the engine or by undefined behaviour. *)
Theorem main_needs_rows `{basic_tree, lexical_cast} (w : World) (r : Z) :
  snd (main w) = Ok r ->
  exists root trainset testset,
    getenv w "DATASET_ROOT_DIR" = Some root /\
    dataset_at w (GetDataConfig ∅) ((root +:+ "house_price\") +:+ "/train.csv") = Ok trainset /\
    dataset_at w (GetDataConfig ∅) ((root +:+ "house_price\") +:+ "/test.csv") = Ok testset /\
    trainset <> [] /\ testset <> [].
Proof.
  intros Hr. destruct (getenv w "DATASET_ROOT_DIR") as [root|] eqn:Hroot.
  2:{ unfold main in Hr. rewrite Hroot in Hr. discriminate. }
  rewrite (main_with_root w root Hroot) in Hr.
  apply bind_returns in Hr as ([[r0 trainset] testset] & Hload & Hr).
  apply bind_returns in Hr as ([] & Hloop & _).
  unfold load_data in Hload. rewrite !load_data_from_one_file_eq in Hload.
  apply bind_returns in Hload as (a & Ha & Hload). apply bind_returns in Hload as (b & Hb & Hload).
  apply bind_returns in Hload as (_ & _ & Hload). cbn in Ha, Hb, Hload.
  injection Hload as _ <- <-.
  exists root, a, b. repeat split; try assumption;
    apply (depth_loop_depths [3; 10; 50] initial_param a b); (exact Hloop || discriminate).
Qed.

(** X19.  When reading [train.csv] fails, the driver stops there: [test.csv]
    is not opened, nothing is printed and no tree is trained. *)
Theorem main_stops_at_bad_train `{basic_tree, lexical_cast} (w : World) (root : string)
    (e : exn) :
  getenv w "DATASET_ROOT_DIR" = Some root ->
  dataset_at w (GetDataConfig ∅) ((root +:+ "house_price\") +:+ "/train.csv") = Throw e ->
  main w = ([EvOpen ((root +:+ "house_price\") +:+ "/train.csv")], Throw e) /\
  e = bad_lexical_cast.
Proof.
  intros Hroot Htrain. split.
  - rewrite (main_with_root w root Hroot). unfold load_data.
    rewrite !load_data_from_one_file_eq, Htrain. reflexivity.
  - apply (loader_throws w ((root +:+ "house_price\") +:+ "/train.csv") (GetDataConfig ∅)).
    exact Htrain.
Qed.

(** ** The claims at sample inputs *)

#[local] Existing Instance Sample.engine.
#[local] Existing Instance Sample.casts.

Lemma test_tree_recall_sample :
  test_tree SampleData.coin SampleData.class_rows =
    cout
      [OStr "REC: ";
       OFloat (F32.div (F32.count (hits [SampleData.coin; SampleData.coin] [0; 1]))
                       (F32.of_nat 2));
       OEndl].
Proof.
  apply (@test_tree_recall Sample.engine SampleData.coin SampleData.class_rows
           [SampleData.coin; SampleData.coin] [0; 1]).
  - reflexivity.
  - reflexivity.
  - discriminate.
  - repeat constructor.
Defined.

Lemma test_tree_mapd_sample :
  test_tree SampleData.ten SampleData.price_rows =
    cout
      [OStr "MAPD: ";
       OFloat (F32.div (F32_sum (zip_with abs_pct_dev [SampleData.ten; SampleData.ten]
                                          [F32.of_Z 10; F32.of_Z 20]))
                       (F32.of_nat 2));
       OEndl].
Proof.
  apply (@test_tree_mapd Sample.engine SampleData.ten SampleData.price_rows
           [SampleData.ten; SampleData.ten] [F32.of_Z 10; F32.of_Z 20]).
  - reflexivity.
  - reflexivity.
  - discriminate.
  - repeat constructor.
Defined.

Lemma test_tree_metric_choice_sample :
  prints_only "MAPD: "
    (test_tree SampleData.ten SampleData.price_rows).
Proof.
  destruct (@test_tree_metric_choice Sample.engine SampleData.ten SampleData.price_rows
              [SampleData.ten; SampleData.ten] [Measurement (F32.of_Z 10)]
              (Measurement (F32.of_Z 10)) eq_refl eq_refl eq_refl)
    as [(Hd & _) | (_ & _ & Hp)].
  - discriminate Hd.
  - exact Hp.
Defined.



Lemma loader_rows_are_lines_sample :
  load_data_from_one_file Sample.world
    "D:\data\house_price\/test.csv" (GetDataConfig ∅) =
  ([EvOpen "D:\data\house_price\/test.csv"], Ok SampleData.testset) /\
  length SampleData.testset = 1%nat /\
  length (lines Sample.test_csv) = 5%nat.
Proof.
  split; [|split; reflexivity].
  rewrite (@loader_rows_are_lines Sample.engine Sample.casts Sample.world
             "D:\data\house_price\/test.csv" (GetDataConfig ∅) Sample.test_csv).
  - vm_compute. reflexivity.
  - reflexivity.
  - vm_compute. reflexivity.
  - vm_compute. repeat constructor.
Defined.

(** C8 as stated fails on a file with a long line: the line of 2048
    characters is cut after 2047 of them and ends the reading, so the line
    after it, which precedes the first empty line, yields no row. *)
Lemma long_line_stops_reading :
  let header := split_line (hd "" (lines SampleData.long_csv)) in
  let claimed := tail (until_empty (lines SampleData.long_csv)) in
  length claimed = 2%nat /\
  read_all (GetDataConfig ∅) SampleData.long_csv =
    Ok [Measurement (F32.of_Z 1) :: replicate 8 (Category 0)] /\
  read_all (GetDataConfig ∅) SampleData.long_csv <>
    mapM (row_of_line (GetDataConfig ∅) header) claimed.
Proof.
  split; [vm_compute; reflexivity|]. split; [vm_compute; reflexivity|].
  vm_compute. discriminate.
Qed.

Lemma missing_file_is_empty_sample :
  load_data SampleData.bare "D:" (GetDataConfig ∅) =
  load_data SampleData.blank "D:" (GetDataConfig ∅).
Proof.
  apply (@missing_file_is_empty Sample.engine Sample.casts SampleData.bare SampleData.blank
           "D:" (GetDataConfig ∅)).
  intros path. right. split; reflexivity.
Defined.

Lemma main_opens_dataset_files_sample :
  main Sample.world =
    ((EvOpen "D:\data\house_price\/train.csv"
      :: EvOpen "D:\data\house_price\/test.csv"
      :: info_line SampleData.trainset SampleData.testset
      ++ fst (depth_loop [3; 10; 50] initial_param SampleData.trainset SampleData.testset))%list,
     snd (depth_loop [3; 10; 50] initial_param SampleData.trainset SampleData.testset;;
          mret 0)).
Proof.
  apply (@main_opens_dataset_files Sample.engine Sample.casts Sample.world "D:\data\"
           SampleData.trainset SampleData.testset).
  - reflexivity.
  - vm_compute. reflexivity.
  - vm_compute. reflexivity.
Defined.

Lemma main_three_runs_sample :
  main Sample.world =
    ((fst (load_data Sample.world "D:\data\house_price\"
             (GetDataConfig ∅))
      ++ run_events 3 SampleData.leaf SampleData.trainset SampleData.testset
      ++ run_events 10 SampleData.leaf SampleData.trainset SampleData.testset
      ++ run_events 50 SampleData.leaf SampleData.trainset SampleData.testset)%list,
     Ok 0).
Proof.
  apply (@main_three_runs Sample.engine Sample.casts Sample.world "D:\data\"
           (fst (load_data Sample.world "D:\data\house_price\"
                   (GetDataConfig ∅)))
           SampleData.trainset SampleData.testset (fun _ => SampleData.leaf)).
  - reflexivity.
  - vm_compute. reflexivity.
  - intros d _. split; [|split]; vm_compute; reflexivity.
Defined.

Lemma main_needs_root_sample :
  main SampleData.bare = ([], Undefined).
Proof.
  apply (@main_needs_root Sample.engine Sample.casts SampleData.bare). reflexivity.
Defined.

(** ** The further properties at sample inputs *)

Lemma demo_row_complete_sample :
  exists row,
    fill_row (GetDataConfig ∅) SampleData.header 0 SampleData.cells
      (replicate (size (GetDataConfig ∅)) (Category 0)) = Ok row /\
    length row = 9%nat.
Proof.
  destruct (@demo_row_complete Sample.engine Sample.casts SampleData.header SampleData.cells)
    as (row & Hrow & Hlen & _).
  - apply (bool_decide_unpack _). vm_compute. exact I.
  - cbn. lia.
  - intros [|[|[|col]]] cell head cfg Hcell Hhead Hcfg; try discriminate;
      injection Hcell as <-; injection Hhead as <-; vm_compute in Hcfg; try discriminate;
      injection Hcfg as <-; split; cbn; intros Hd;
      try discriminate; try (exfalso; apply Hd; reflexivity); eexists; reflexivity.
  - exists row. split; assumption.
Defined.

Lemma fill_row_ignores_unconfigured_sample :
  fill_row (GetDataConfig ∅) SampleData.header 0 ["1"; "208500"; "0"]
    (replicate 9 (Category 0)) =
  fill_row (GetDataConfig ∅) SampleData.header 0 ["no number"; "208500"; "0"]
    (replicate 9 (Category 0)).
Proof.
  apply (@fill_row_ignores_unconfigured Sample.casts).
  - reflexivity.
  - intros [|[|[|col]]] cell cell' head Hcell Hcell' Hhead Hcfg; try discriminate;
      injection Hcell as <-; injection Hcell' as <-; try reflexivity.
    injection Hhead as <-. destruct Hcfg as [cfg Hcfg]. vm_compute in Hcfg. discriminate.
Defined.

Lemma row_of_line_defaults_sample :
  length (hd [] SampleData.trainset) = size (GetDataConfig ∅) /\
  hd [] SampleData.trainset !! 8%nat = Some (Category 0).
Proof.
  destruct (@row_of_line_defaults Sample.engine Sample.casts (GetDataConfig ∅)
              (split_line "Id,SalePrice,LotShape,YearBuilt") "1,208500,0,2003"
              (hd [] SampleData.trainset)) as [Hlen Hdefault].
  - vm_compute. reflexivity.
  - split; [exact Hlen|]. apply (Hdefault 8%nat); [vm_compute; lia|].
    change (split_line "Id,SalePrice,LotShape,YearBuilt")
      with ["Id"; "SalePrice"; "LotShape"; "YearBuilt"].
    change (length (split_line "1,208500,0,2003")) with 4%nat.
    clear Hlen Hdefault.
    intros [|[|[|[|col]]]] head cfg Hcol Hhead Hcfg; [..|exfalso; clear -Hcol; lia];
      injection Hhead as <-; vm_compute in Hcfg; try discriminate;
      injection Hcfg as <-; discriminate.
Defined.

Lemma fill_row_too_many_cells_sample :
  fill_row (GetDataConfig ∅) ["Id"] 0 ["1"; "2"] (replicate 9 (Category 0)) = Undefined \/
  fill_row (GetDataConfig ∅) ["Id"] 0 ["1"; "2"] (replicate 9 (Category 0)) =
    Throw bad_lexical_cast.
Proof. apply (@fill_row_too_many_cells Sample.casts). cbn. lia. Defined.

Lemma loader_only_bad_cast_sample :
  snd (load_data_from_one_file SampleEdge.bad_world "train.csv" (GetDataConfig ∅)) =
    Throw bad_lexical_cast /\
  bad_lexical_cast = bad_lexical_cast.
Proof.
  split; [vm_compute; reflexivity|].
  apply (@loader_only_bad_cast Sample.engine Sample.casts SampleEdge.bad_world "train.csv"
           (GetDataConfig ∅)).
  vm_compute. reflexivity.
Defined.

Lemma loader_row_lengths_sample :
  Forall (fun row => length row = size (GetDataConfig ∅)) SampleData.testset.
Proof.
  apply (@loader_row_lengths Sample.engine Sample.casts Sample.world
           "D:\data\house_price\/test.csv").
  vm_compute. reflexivity.
Defined.

Lemma long_line_ends_reading_sample :
  read_all (GetDataConfig ∅)
    (join_lines ("SalePrice" :: [] ++
                 [SampleEdge.long_head +:+ String " "%char SampleEdge.long_tail])) =
  mapM (row_of_line (GetDataConfig ∅) (split_line "SalePrice")) ([] ++ [SampleEdge.long_head]).
Proof.
  apply (@long_line_ends_reading Sample.engine Sample.casts).
  - repeat constructor; (discriminate || vm_compute; lia).
  - vm_compute. reflexivity.
  - vm_compute. reflexivity.
  - vm_compute. reflexivity.
  - reflexivity.
Defined.

Lemma split_line_cells_sample :
  has_char comma "a" = false /\ starts_blank "a" = false /\ ends_blank "a" = false.
Proof. apply (split_line_cells " a ,b" "a"). vm_compute. left. Defined.

Lemma blank_line_row_sample :
  row_of_line (GetDataConfig ∅) ["Id"; "SalePrice"] SampleEdge.carriage_return =
    Ok (replicate 9 (Category 0)).
Proof.
  destruct (@blank_line_row Sample.engine Sample.casts (GetDataConfig ∅) "Id" ["SalePrice"]
              SampleEdge.carriage_return) as (_ & _ & Hrow);
    [discriminate|reflexivity|reflexivity|exact Hrow].
Defined.

Lemma test_tree_too_many_predictions_sample :
  @test_tree SampleEdge.chatty SampleData.coin SampleData.class_rows = ([], Undefined).
Proof.
  apply (@test_tree_too_many_predictions SampleEdge.chatty SampleData.coin
           SampleData.class_rows [SampleData.coin; SampleData.coin; SampleData.coin]).
  - reflexivity.
  - cbn. lia.
  - discriminate.
  - left. exists [0; 1]. repeat constructor.
Defined.

Lemma deviation_missing_key_sample :
  deviation (map_at [(1, F32.one)] 0) (F32.of_Z 10) =
    F32.div (F32.abs (F32.of_Z 10)) (F32.max F32.lit_1e_5 (F32.of_Z 10)).
Proof.
  destruct (deviation_missing_key [(1, F32.one)] (F32.of_Z 10)) as [_ Hdev];
    [|exact Hdev].
  cbn. intros Hin. apply list_elem_of_singleton in Hin. discriminate.
Defined.

Lemma main_needs_rows_sample :
  exists root trainset testset,
    getenv Sample.world "DATASET_ROOT_DIR" = Some root /\
    dataset_at Sample.world (GetDataConfig ∅) ((root +:+ "house_price\") +:+ "/train.csv") =
      Ok trainset /\
    dataset_at Sample.world (GetDataConfig ∅) ((root +:+ "house_price\") +:+ "/test.csv") =
      Ok testset /\
    trainset <> [] /\ testset <> [].
Proof.
  apply (@main_needs_rows Sample.engine Sample.casts Sample.world 0). vm_compute. reflexivity.
Defined.

Lemma main_stops_at_bad_train_sample :
  main SampleEdge.bad_world =
    ([EvOpen (("D:\data\" +:+ "house_price\") +:+ "/train.csv")], Throw bad_lexical_cast).
Proof.
  apply (@main_stops_at_bad_train Sample.engine Sample.casts SampleEdge.bad_world "D:\data\"
           bad_lexical_cast).
  - reflexivity.
  - vm_compute. reflexivity.
Defined.
